(** * Abstract screening with a text oracle: filter_papers_gemini.py

    A shallow embedding of [src/filter_papers_gemini.py]: the retry loop of
    [call_model], the bracket search of [extract_json_array], the batch loop
    and the reconciliation of [get_filtered_data], the finalization of
    [process], and the context check of [filter_papers_gemini]; and of the
    column guessing and the deduplication by DOI of [src/clean_data.py].

    Python values are an inductive type, dicts keyed by strings or integers
    are finite maps, exceptions are a sum type, and the outside world (the
    oracle behind [client.models.generate_content], [time.sleep], the files)
    is passed explicitly. *)

From Stdlib Require Import ZArith QArith Ascii String Lia.
From stdpp Require Import gmap strings list.

Set Warnings "-register-all,-clear-no-such-hyp".

Open Scope string_scope.
Open Scope nat_scope.
Open Scope list_scope.
Open Scope stdpp_scope.

(** ** Python strings

    A [str] is held as its UTF-8 text, a Rocq [string] of 8-bit characters:
    equality, [in] and [startswith] on the text are those of Python on the
    [str], and so is the search for the ASCII brackets. The methods that
    follow the Unicode database ([upper], [lower], [strip], and [int] on a
    [str]) are not computed here: the program is verified for whatever
    they do, see [Builtins] below. The functions [ascii_upper],
    [ascii_lower], [ascii_strip] and [ascii_int] are what these methods do
    on ASCII text; they run the examples, whose data is ASCII. *)

Definition code (a : ascii) : nat := nat_of_ascii a.

(** The double quote, which no string literal of this file contains. *)
Definition dquote : ascii := ascii_of_nat 34.

(** [s.startswith(p)]. *)
Fixpoint startswith (p s : string) : bool :=
  match p, s with
  | EmptyString, _ => true
  | String a p', String b s' => Ascii.eqb a b && startswith p' s'
  | String _ _, EmptyString => false
  end.

(** [needle in hay] on strings: some suffix of [hay] starts with [needle]. *)
Fixpoint contains (needle hay : string) : bool :=
  startswith needle hay ||
  match hay with
  | EmptyString => false
  | String _ hay' => contains needle hay'
  end.

Definition upper_ascii (a : ascii) : ascii :=
  if (97 <=? code a) && (code a <=? 122) then ascii_of_nat (code a - 32) else a.

Definition lower_ascii (a : ascii) : ascii :=
  if (65 <=? code a) && (code a <=? 90) then ascii_of_nat (code a + 32) else a.

Fixpoint map_string (f : ascii -> ascii) (s : string) : string :=
  match s with
  | EmptyString => EmptyString
  | String a s' => String (f a) (map_string f s')
  end.

(** [s.upper()] and [s.lower()] for an ASCII [s]. *)
Definition ascii_upper : string -> string := map_string upper_ascii.
Definition ascii_lower : string -> string := map_string lower_ascii.

(** The text has no character above 127. *)
Fixpoint ascii_text (s : string) : bool :=
  match s with
  | EmptyString => true
  | String a s' => (code a <? 128) && ascii_text s'
  end.

(** The ASCII characters for which [str.isspace] holds: tab to carriage
    return, the four separators 28 to 31, and the space. *)
Definition is_space (a : ascii) : bool :=
  ((9 <=? code a) && (code a <=? 13)) || ((28 <=? code a) && (code a <=? 31))
  || (code a =? 32).

Fixpoint lstrip (s : string) : string :=
  match s with
  | String a s' => if is_space a then lstrip s' else s
  | EmptyString => EmptyString
  end.

Fixpoint rstrip (s : string) : string :=
  match s with
  | EmptyString => EmptyString
  | String a s' =>
      match rstrip s' with
      | EmptyString => if is_space a then EmptyString else String a EmptyString
      | t => String a t
      end
  end.

(** [s.strip()] for an ASCII [s]. *)
Definition ascii_strip (s : string) : string := rstrip (lstrip s).

Definition is_digit (a : ascii) : bool := (48 <=? code a) && (code a <=? 57).

Definition digit_val (a : ascii) : Z := Z.of_nat (code a - 48).

Definition digit_char (n : nat) : ascii := ascii_of_nat (48 + n).

(** Decimal digits of a natural number, most significant first. *)
Fixpoint digits_of (fuel n : nat) (acc : string) : string :=
  match fuel with
  | 0 => acc
  | S fuel' =>
      let acc' := String (digit_char (n mod 10)) acc in
      if n / 10 =? 0 then acc' else digits_of fuel' (n / 10) acc'
  end.

(** [str(z)] for an [int]. *)
Definition str_of_int (z : Z) : string :=
  let n := Z.to_nat (Z.abs z) in
  let d := digits_of (S n) n EmptyString in
  if (z <? 0)%Z then String "-" d else d.

(** ** Exceptions and results *)

Inductive exn : Type :=
| ModelError (error_str : string)   (* what generate_content raised; [str(e)] is kept *)
| ValueError (msg : string)
| TypeError (msg : string)
| AttributeError (msg : string)
| JSONDecodeError
| KeyError (key : string)
| SystemExit (msg : string).

Inductive result (A : Type) : Type :=
| Ok (a : A)
| Raise (e : exn).

Arguments Ok {A} a.
Arguments Raise {A} e.

Definition bind {A B : Type} (r : result A) (k : A -> result B) : result B :=
  match r with
  | Ok a => k a
  | Raise e => Raise e
  end.

Declare Scope result_scope.
Delimit Scope result_scope with result.

Notation "x <- r ;; k" := (bind r (fun x => k))
  (at level 100, r at next level, right associativity) : result_scope.

Definition is_ok {A : Type} (r : result A) : bool :=
  match r with Ok _ => true | Raise _ => false end.

(** ** Python values

    The values [json.loads] can return. A [float] is kept as the two
    observations this program can make of one: its [str()] and its [int()]
    ([None] where [int()] raises, for nan and the infinities). A [dict] is
    the list of its items in insertion order, keys distinct. *)

Inductive pyval : Type :=
| PNone
| PBool (b : bool)
| PInt (z : Z)
| PFloat (repr : string) (trunc : option Z)
| PStr (s : string)
| PList (l : list pyval)
| PDict (d : list (string * pyval)).

(** Lookup in the items of a dict. *)
Fixpoint items_get (d : list (string * pyval)) (key : string) : option pyval :=
  match d with
  | [] => None
  | (k, v) :: d' => if String.eqb k key then Some v else items_get d' key
  end.

(** [d[key] = v] on the items of a dict: an existing key keeps its place. *)
Fixpoint items_set (key : string) (v : pyval) (d : list (string * pyval))
  : list (string * pyval) :=
  match d with
  | [] => [(key, v)]
  | (k, v') :: d' =>
      if String.eqb k key then (k, v) :: d' else (k, v') :: items_set key v d'
  end.

(** [dict(pairs)]: a repeated key keeps its first place and its last value. *)
Definition dict_of_pairs (pairs : list (string * pyval)) : list (string * pyval) :=
  fold_left (fun d kv => items_set (fst kv) (snd kv) d) pairs [].

(** [entry.get(key, default)]: only a dict has the method. *)
Definition py_get (entry : pyval) (key : string) (default : pyval) : result pyval :=
  match entry with
  | PDict d => Ok (match items_get d key with Some v => v | None => default end)
  | _ => Raise (AttributeError "object has no attribute 'get'")
  end.

(** *** [int(x)] *)

(** Python refuses to convert a decimal string of more than 4300 digits
    ([sys.int_max_str_digits]). *)
Definition MAX_STR_DIGITS : nat := 4300.

(** The digits of an integer literal after its sign: groups of digits
    separated by single underscores. [prev] tells whether the previous
    character was a digit; the result is the value and the digit count. *)
Fixpoint int_digits (s : string) (prev : bool) (acc : Z) (n : nat) : option (Z * nat) :=
  match s with
  | EmptyString => if prev then Some (acc, n) else None
  | String a s' =>
      if is_digit a then int_digits s' true (10 * acc + digit_val a)%Z (S n)
      else if Ascii.eqb a "_" && prev then int_digits s' false acc n
      else None
  end.

(** [int(s)] for an ASCII [str], base 10: surrounding whitespace, an
    optional sign, then the digits; [None] where [int] raises. *)
Definition ascii_int (s : string) : option Z :=
  let body := ascii_strip s in
  let '(neg, ds) :=
    match body with
    | String "-" r => (true, r)
    | String "+" r => (false, r)
    | _ => (false, body)
    end in
  match int_digits ds false 0%Z 0 with
  | Some (z, n) => if n <=? MAX_STR_DIGITS then Some (if neg then (- z)%Z else z) else None
  | None => None
  end.

(** ** Rows and verdicts *)

(** One row of the input table, and of what is written: column to value. *)
Abbreviation row := (gmap string pyval).

(** The verdicts collected so far: [results] of [get_filtered_data]. *)
Abbreviation result_map := (gmap Z (gmap string pyval)).

(** ** The builtins that follow the Unicode database

    [str.upper], [str.lower], [str.strip] and [int] on a [str] depend on
    the Unicode tables of the interpreter: the dotless i upper-cases to I,
    a no-break space is stripped, an Arabic-Indic digit is a digit. The
    program is verified against the interface below, for every behaviour
    of these four; the one law is that [upper] on ASCII text changes the
    letters a to z and nothing else. *)
Class Builtins : Type := {
  upper : string -> string;
  lower : string -> string;
  strip : string -> string;
  (** [int(s)] for a [str]; [None] where it raises [ValueError]. *)
  int_of_str : string -> option Z;
  upper_ascii_text : forall s, ascii_text s = true -> upper s = ascii_upper s
}.

(** The builtins on ASCII text, for the examples. *)
Definition ascii_builtins : Builtins :=
  {| upper := ascii_upper;
     lower := ascii_lower;
     strip := ascii_strip;
     int_of_str := ascii_int;
     upper_ascii_text := fun s _ => eq_refl |}.

Section Program.

Context {builtins : Builtins}.

Definition py_int (v : pyval) : result Z :=
  match v with
  | PNone => Raise (TypeError "int() argument must be a string or a number, not 'NoneType'")
  | PBool b => Ok (if b then 1%Z else 0%Z)
  | PInt z => Ok z
  | PFloat _ (Some z) => Ok z
  | PFloat _ None => Raise (ValueError "cannot convert float to integer")
  | PStr s =>
      match int_of_str s with
      | Some z => Ok z
      | None => Raise (ValueError "invalid literal for int() with base 10")
      end
  | PList _ => Raise (TypeError "int() argument must be a string or a number, not 'list'")
  | PDict _ => Raise (TypeError "int() argument must be a string or a number, not 'dict'")
  end.

(** *** [str(x)] and [repr(x)] *)

Definition hex_char (n : nat) : ascii :=
  if n <? 10 then ascii_of_nat (48 + n) else ascii_of_nat (87 + n).

Fixpoint has_char (c : ascii) (s : string) : bool :=
  match s with
  | EmptyString => false
  | String a s' => Ascii.eqb a c || has_char c s'
  end.

(** One character of a string's [repr], inside quotes [q]. The characters
    above 127 are kept, as Python keeps the printable ones; the escapes it
    writes for the others are not modelled. *)
Definition repr_char (q a : ascii) : string :=
  if Ascii.eqb a "\" then "\\"
  else if Ascii.eqb a q then String "\" (String q EmptyString)
  else if code a =? 9 then "\t"
  else if code a =? 10 then "\n"
  else if code a =? 13 then "\r"
  else if (code a <? 32) || (code a =? 127)
       then String "\" (String "x" (String (hex_char (code a / 16))
                                         (String (hex_char (code a mod 16)) EmptyString)))
  else String a EmptyString.

Fixpoint repr_chars (q : ascii) (s : string) : string :=
  match s with
  | EmptyString => EmptyString
  | String a s' => repr_char q a +:+ repr_chars q s'
  end.

(** [repr(s)] for a [str]: single quotes, unless the string has a single
    quote and no double quote. *)
Definition repr_str (s : string) : string :=
  let q := if has_char "'" s && negb (has_char dquote s) then dquote else "'"%char in
  String q (repr_chars q s +:+ String q EmptyString).

(** [", ".join(parts)]. *)
Fixpoint join_comma (parts : list string) : string :=
  match parts with
  | [] => EmptyString
  | [p] => p
  | p :: ps => p +:+ ", " +:+ join_comma ps
  end.

Fixpoint py_repr (v : pyval) : string :=
  match v with
  | PNone => "None"
  | PBool true => "True"
  | PBool false => "False"
  | PInt z => str_of_int z
  | PFloat r _ => r
  | PStr s => repr_str s
  | PList l => "[" +:+ join_comma (List.map py_repr l) +:+ "]"
  | PDict d =>
      "{" +:+ join_comma (List.map (fun kv => repr_str (fst kv) +:+ ": " +:+ py_repr (snd kv)) d)
          +:+ "}"
  end.

(** [str(x)]: the string itself, the [repr] of anything else. *)
Definition py_str (v : pyval) : string :=
  match v with
  | PStr s => s
  | _ => py_repr v
  end.

(** ** Regular-expression search

    [re.search(r'\[.*\]', text, flags=re.DOTALL)] and its twin for braces:
    an opening character, any characters (newlines too), a closing
    character, with a greedy star. The leftmost match starts at the first
    opening character and, the star being greedy, runs to the last closing
    character after it. *)

(** The text from the first [c] on. *)
Fixpoint from_first (c : ascii) (s : string) : option string :=
  match s with
  | EmptyString => None
  | String a s' => if Ascii.eqb a c then Some s else from_first c s'
  end.

(** The longest prefix of [s] that ends with [c]. *)
Fixpoint upto_last (c : ascii) (s : string) : option string :=
  match s with
  | EmptyString => None
  | String a s' =>
      match upto_last c s' with
      | Some t => Some (String a t)
      | None => if Ascii.eqb a c then Some (String a EmptyString) else None
      end
  end.

(** [m.group(0)] of the search, [None] when nothing matches. *)
Definition re_search (o c : ascii) (text : string) : option string :=
  match from_first o text with
  | Some (String _ rest) =>
      match upto_last c rest with
      | Some t => Some (String o t)
      | None => None
      end
  | _ => None
  end.

(** ** A JSON decoder for the examples

    The grammar [json.loads] reads (CPython's scanner: values, arrays,
    objects, strings with their escapes, blanks), on the fragment without
    fractional or exponent numbers, without NaN and Infinity, and with
    unicode escapes below 128 only; outside the fragment the answer is
    [None] too. The theorems below hold for every decoder; this one gives
    the examples a concrete one. *)

Definition is_json_ws (a : ascii) : bool :=
  (code a =? 32) || (code a =? 9) || (code a =? 10) || (code a =? 13).

Fixpoint skip_ws (s : string) : string :=
  match s with
  | String a s' => if is_json_ws a then skip_ws s' else s
  | EmptyString => EmptyString
  end.

Fixpoint strip_prefix (p s : string) : option string :=
  match p, s with
  | EmptyString, _ => Some s
  | String a p', String b s' => if Ascii.eqb a b then strip_prefix p' s' else None
  | String _ _, EmptyString => None
  end.

Definition hex_val (a : ascii) : option nat :=
  if is_digit a then Some (code a - 48)
  else if (97 <=? code a) && (code a <=? 102) then Some (code a - 87)
  else if (65 <=? code a) && (code a <=? 70) then Some (code a - 55)
  else None.

(** The character a one-letter escape stands for. *)
Definition unescape (e : ascii) : option ascii :=
  if Ascii.eqb e dquote then Some dquote
  else if Ascii.eqb e "\" then Some "\"%char
  else if Ascii.eqb e "/" then Some "/"%char
  else if Ascii.eqb e "b" then Some (ascii_of_nat 8)
  else if Ascii.eqb e "f" then Some (ascii_of_nat 12)
  else if Ascii.eqb e "n" then Some (ascii_of_nat 10)
  else if Ascii.eqb e "r" then Some (ascii_of_nat 13)
  else if Ascii.eqb e "t" then Some (ascii_of_nat 9)
  else None.

Definition cons_char (a : ascii) (r : option (string * string)) : option (string * string) :=
  match r with
  | Some (t, rest) => Some (String a t, rest)
  | None => None
  end.

(** A JSON string after its opening quote, strict mode: the decoded string
    and the text after the closing quote. *)
Fixpoint scanstring (s : string) : option (string * string) :=
  match s with
  | EmptyString => None
  | String a r =>
      if Ascii.eqb a dquote then Some (EmptyString, r)
      else if Ascii.eqb a "\" then
        match r with
        | String e r' =>
            if Ascii.eqb e "u" then
              match r' with
              | String h1 (String h2 (String h3 (String h4 r''))) =>
                  match hex_val h1, hex_val h2, hex_val h3, hex_val h4 with
                  | Some 0, Some 0, Some c, Some d =>
                      if c <? 8 then cons_char (ascii_of_nat (16 * c + d)) (scanstring r'')
                      else None
                  | _, _, _, _ => None
                  end
              | _ => None
              end
            else
              match unescape e with
              | Some c => cons_char c (scanstring r')
              | None => None
              end
        | EmptyString => None
        end
      else if code a <? 32 then None
      else cons_char a (scanstring r)
  end.

Fixpoint take_digits (s : string) : string * string :=
  match s with
  | String a s' =>
      if is_digit a then let '(ds, rest) := take_digits s' in (String a ds, rest)
      else (EmptyString, s)
  | EmptyString => (EmptyString, EmptyString)
  end.

Fixpoint digits_value (ds : string) (acc : Z) : Z :=
  match ds with
  | EmptyString => acc
  | String a ds' => digits_value ds' (10 * acc + digit_val a)%Z
  end.

Definition starts_digit (s : string) : bool :=
  match s with
  | String a _ => is_digit a
  | EmptyString => false
  end.

(** A fraction or an exponent follows the integer part: a [float]. *)
Definition float_follows (rest : string) : bool :=
  match rest with
  | String "." r => starts_digit r
  | String a r =>
      (Ascii.eqb a "e" || Ascii.eqb a "E") &&
      match r with
      | String s r' =>
          if Ascii.eqb s "+" || Ascii.eqb s "-" then starts_digit r' else is_digit s
      | EmptyString => false
      end
  | EmptyString => false
  end.

(** A number: an optional minus, then 0 or a digit string that does not
    start with 0. *)
Definition scan_number (s : string) : option (pyval * string) :=
  let '(neg, s1) := match s with String "-" r => (true, r) | _ => (false, s) end in
  match s1 with
  | String a r =>
      if is_digit a then
        let '(ds, rest) :=
          if Ascii.eqb a "0" then (String a EmptyString, r) else take_digits s1 in
        if float_follows rest then None
        else if String.length ds <=? MAX_STR_DIGITS
        then Some (PInt (if neg then - digits_value ds 0 else digits_value ds 0)%Z, rest)
        else None
      else None
  | EmptyString => None
  end.

Fixpoint scan_once (fuel : nat) (s : string) {struct fuel} : option (pyval * string) :=
  match fuel with
  | 0 => None
  | S fuel' =>
      match s with
      | EmptyString => None
      | String a r =>
          if Ascii.eqb a dquote then
            match scanstring r with
            | Some (t, r') => Some (PStr t, r')
            | None => None
            end
          else if Ascii.eqb a "[" then
            match skip_ws r with
            | String "]" r' => Some (PList [], r')
            | r1 => scan_elems fuel' r1 []
            end
          else if Ascii.eqb a "{" then
            match skip_ws r with
            | String "}" r' => Some (PDict [], r')
            | r1 => scan_pairs fuel' r1 []
            end
          else
            match strip_prefix "null" s, strip_prefix "true" s, strip_prefix "false" s with
            | Some r', _, _ => Some (PNone, r')
            | _, Some r', _ => Some (PBool true, r')
            | _, _, Some r' => Some (PBool false, r')
            | _, _, _ => scan_number s
            end
      end
  end
with scan_elems (fuel : nat) (s : string) (acc : list pyval) {struct fuel}
  : option (pyval * string) :=
  match fuel with
  | 0 => None
  | S fuel' =>
      match scan_once fuel' s with
      | None => None
      | Some (v, r) =>
          match skip_ws r with
          | String "]" r' => Some (PList (rev (v :: acc)), r')
          | String "," r' => scan_elems fuel' (skip_ws r') (v :: acc)
          | _ => None
          end
      end
  end
with scan_pairs (fuel : nat) (s : string) (acc : list (string * pyval)) {struct fuel}
  : option (pyval * string) :=
  match fuel with
  | 0 => None
  | S fuel' =>
      match s with
      | EmptyString => None
      | String q r =>
          if Ascii.eqb q dquote then
            match scanstring r with
            | None => None
            | Some (key, r1) =>
                match skip_ws r1 with
                | String ":" r2 =>
                    match scan_once fuel' (skip_ws r2) with
                    | None => None
                    | Some (v, r3) =>
                        match skip_ws r3 with
                        | String "}" r4 =>
                            Some (PDict (dict_of_pairs (rev ((key, v) :: acc))), r4)
                        | String "," r4 => scan_pairs fuel' (skip_ws r4) ((key, v) :: acc)
                        | _ => None
                        end
                    end
                | _ => None
                end
            end
          else None
      end
  end.

(** [json.loads(text)] on the fragment: blanks, one value, blanks, the end. *)
Definition json_decode (text : string) : option pyval :=
  match scan_once (2 * String.length text + 2) (skip_ws text) with
  | Some (v, r) =>
      match skip_ws r with
      | EmptyString => Some v
      | _ => None
      end
  | None => None
  end.

(** Example texts are written with single quotes where JSON has double
    quotes: [json_text] puts the double quotes back. *)
Definition json_text : string -> string :=
  map_string (fun a => if Ascii.eqb a "'" then dquote else a).

(** ** The world outside the program *)

(** What a caller can pass where Python checks nothing: [None], a string,
    an integer or a [Path]. *)
Inductive pyarg : Type :=
| ArgNone
| ArgStr (s : string)
| ArgInt (z : Z)
| ArgPath (p : string).

(** One paper of a request: [{"index", "title", "abstract"}]. *)
Record item : Type := {
  item_index : nat;
  item_title : string;
  item_abstract : string
}.

(** The request sent to the oracle. The instruction text is the same in
    every request and its rendering as one string is not modelled: the
    oracle sees the context and the papers. *)
Record prompt : Type := {
  prompt_context : string;
  prompt_papers : list item
}.

(** What one call of [client.models.generate_content] does: it returns a
    response whose text is [text], or raises an exception [e] with
    [str(e) = error_str]. *)
Inductive outcome : Type :=
| Reply (text : string)
| Failure (error_str : string).

(** The effects the program has on the world: how many oracle calls were
    made, and the durations passed to [time.sleep], latest first. *)
Record world : Type := {
  calls : nat;
  slept : list Q
}.

Definition world0 : world := {| calls := 0; slept := [] |}.

Definition tick (w : world) : world :=
  {| calls := S (calls w); slept := slept w |}.

Definition sleep (d : Q) (w : world) : world :=
  {| calls := calls w; slept := d :: slept w |}.

(** [pd.read_csv]: the columns in order, and [df.to_dict(orient='records')]. *)
Record dataset : Type := {
  columns : list string;
  records : list row
}.

(** The files the program reads: the text of [screening-context.txt] when it
    exists, and [data/clean/<folder>/cleaned.csv] per folder when it exists. *)
Record files : Type := {
  default_context_file : option string;
  cleaned_csv : string -> option dataset
}.

(** What [process] writes: the rows of [included.csv] and [excluded.csv],
    under [out_dir]. A row is the dict it was built from; the blank cells a
    [DataFrame] adds where a row lacks a column of another row are not
    modelled. *)
Record report : Type := {
  out_dir_path : string;
  included_csv : list row;
  excluded_csv : list row
}.

(** ** The program *)

Definition DEFAULT_BATCH : Z := 10.
Definition MAX_RETRIES : nat := 3.

(** [range(0, stop, step)] for a positive step, by iteration: at most [fuel]
    values, and [stop] of them always suffice. *)
Fixpoint range_from (fuel start stop step : nat) : list nat :=
  match fuel with
  | 0 => []
  | S fuel' =>
      if start <? stop then start :: range_from fuel' (start + step) stop step else []
  end.

(** [range(0, stop, step)]: a zero step raises, a negative one gives the
    empty range, and only an [int] is a step. *)
Definition py_range (stop : nat) (step : pyarg) : result (list nat) :=
  match step with
  | ArgInt z =>
      if (z =? 0)%Z then Raise (ValueError "range() arg 3 must not be zero")
      else if (z <? 0)%Z then Ok []
      else Ok (range_from stop 0 stop (Z.to_nat z))
  | _ => Raise (TypeError "object cannot be interpreted as an integer")
  end.

(** [rows[start:start+size]]. *)
Definition slice {A : Type} (rows : list A) (start size : nat) : list A :=
  take size (drop start rows).

(** Lines 52-56. *)
Definition build_prompt (context_text : string) (items : list item) : prompt :=
  {| prompt_context := strip context_text; prompt_papers := items |}.

(** The delay before retrying after a 503: [2 * (2 ** (attempt - 1))], a
    float when [attempt] is 0. *)
Definition wait_time (attempt : nat) : Q :=
  Qred (2 * Qpower 2 (Z.of_nat attempt - 1)).

(** [results[idx] = {"TEST": ..., "REASON": ...}] stores this dict. *)
Definition verdict (test : string) (reason : pyval) : row :=
  <["TEST" := PStr test]> (<["REASON" := reason]> ∅).

(** The decision of a verdict is one of the two words. *)
Definition decided (v : row) : Prop :=
  v !! "TEST" = Some (PStr "INCLUDE") \/ v !! "TEST" = Some (PStr "EXCLUDE").

(** The value [results.get(i, ...)] falls back on. *)
Definition default_verdict : row := {["TEST" := PStr "INCLUDE"]}.

(** [out_df['TEST'] == t], row by row. *)
Definition test_is (t : string) (r : row) : bool :=
  match r !! "TEST" with
  | Some (PStr s) => String.eqb s t
  | _ => false
  end.

(** Lines 132-133: the first column whose stripped, lower-cased name is or
    contains [key]. *)
Definition find_column (key : string) (cols : list string) : option string :=
  List.find (fun c => String.eqb (lower (strip c)) key || contains key (lower (strip c))) cols.

(** Lines 141-146: one merged row per input row, the verdict's fields laid
    over the original columns. *)
Definition out_rows (rows : list row) (results : result_map) : list row :=
  imap (fun i orig => default default_verdict (results !! Z.of_nat i) ∪ orig) rows.

(** Lines 150-151, the rows kept for each file, the decision column dropped. *)
Definition included (out : list row) : list row :=
  List.map (delete "TEST") (List.filter (test_is "INCLUDE") out).

Definition excluded (out : list row) : list row :=
  List.map (delete "TEST") (List.filter (test_is "EXCLUDE") out).

(** What one pass through the body of the batch loop ends in: the next
    batch, [return results], or an exception. *)
Inductive step : Type :=
| Next (results : result_map)
| Return (results : result_map)
| Abort (e : exn).

(** ** Classes of model errors *)

(** Line 67: the error text carries a rate-limit marker. *)
Definition rate_limited (error_str : string) : bool :=
  contains "429" error_str || contains "RESOURCE_EXHAUSTED" error_str.

(** Line 73: the branch for an unavailable service is an [elif], so it is
    taken by an error text with its marker and without a rate-limit marker. *)
Definition unavailable (error_str : string) : bool :=
  negb (rate_limited error_str)
  && (contains "503" error_str || contains "SERVICE_UNAVAILABLE" error_str).

(** A verdict as line 123 stores it: INCLUDE with the empty reason, or
    EXCLUDE with the reason read from the entry. *)
Definition gated (v : row) : Prop :=
  v = verdict "INCLUDE" (PStr "") \/ exists reason, v = verdict "EXCLUDE" reason.

(** ** clean_data.py: column guessing and deduplication *)

(** [d[low] = orig] on the items of a dict from strings to strings: an
    existing key keeps its place and takes the new value. *)
Fixpoint lowered_set (low orig : string) (d : list (string * string))
  : list (string * string) :=
  match d with
  | [] => [(low, orig)]
  | (k, v) :: d' =>
      if String.eqb k low then (k, orig) :: d' else (k, v) :: lowered_set low orig d'
  end.

(** Line 48: [{c.lower().strip(): c for c in df_cols}]. *)
Definition lowered (df_cols : list string) : list (string * string) :=
  fold_left (fun d c => lowered_set (strip (lower c)) c d) df_cols [].

(** Lines 50-52: the first item whose key contains [key]. *)
Fixpoint first_containing (key : string) (d : list (string * string)) : option string :=
  match d with
  | [] => None
  | (low, orig) :: d' => if contains key low then Some orig else first_containing key d'
  end.

Fixpoint guess_in (d : list (string * string)) (keywords : list string) : option string :=
  match keywords with
  | [] => None
  | key :: keywords' =>
      match first_containing key d with
      | Some orig => Some orig
      | None => guess_in d keywords'
      end
  end.

(** Lines 47-53. *)
Definition guess_column (df_cols keywords : list string) : option string :=
  guess_in (lowered df_cols) keywords.

(** [isna]: [None] and the float nan. *)
Definition is_na (v : pyval) : bool :=
  match v with
  | PNone => true
  | PFloat r _ => String.eqb r "nan"
  | _ => false
  end.

(** The DOI cell of a row of the merged table; a table without the column
    gets it filled with [pd.NA] (lines 170-171). *)
Definition doi_cell (r : row) : pyval := default PNone (r !! "DOI").

(** Line 176: the DOI is missing, or blank once stripped. *)
Definition is_null_like (r : row) : bool :=
  is_na (doi_cell r) || String.eqb (strip (py_str (doi_cell r))) "".

(** Lines 181 and 191: [astype(str).str.strip().str.lower()]. *)
Definition doi_normalized (r : row) : string := lower (strip (py_str (doi_cell r))).

(** [s.duplicated(keep='first')]: every occurrence of a value after its
    first. [seen] holds the values met so far. *)
Fixpoint duplicated (seen keys : list string) : list bool :=
  match keys with
  | [] => []
  | k :: keys' =>
      if existsb (String.eqb k) seen then true :: duplicated seen keys'
      else false :: duplicated (k :: seen) keys'
  end.

(** [df[mask]]: the rows whose mark is true. *)
Fixpoint select {A : Type} (rows : list A) (mask : list bool) : list A :=
  match rows, mask with
  | r :: rows', b :: mask' => if b then r :: select rows' mask' else select rows' mask'
  | _, _ => []
  end.

(** Lines 180 and 189: the rows whose DOI is not null-like. *)
Definition non_null_rows (merged : list row) : list row :=
  select merged (List.map (fun r => negb (is_null_like r)) merged).

(** Lines 191-192: [rows[~keys.duplicated(keep='first')]] with the
    normalized DOI as key. *)
Definition keep_first (seen : list string) (rows : list row) : list row :=
  select rows (List.map negb (duplicated seen (List.map doi_normalized rows))).

(** Lines 189-193: the rows with a DOI, the first row of every DOI. *)
Definition cleaned (merged : list row) : list row :=
  keep_first [] (non_null_rows merged).

(** Line 177: [int(is_null_like.sum())]. *)
Definition null_doi_count (merged : list row) : nat :=
  length (List.filter is_null_like merged).

(** Line 186: [int(non_null.duplicated(keep='first').sum())]. *)
Definition duplicate_rows_count (merged : list row) : nat :=
  length (List.filter id (duplicated [] (List.map doi_normalized (non_null_rows merged)))).

(** ** Further example data *)

(** The verdicts of the good reply. *)
Definition good_results : result_map :=
  <[1%Z := verdict "EXCLUDE" (PStr "TOPIC")]> (<[0%Z := verdict "INCLUDE" (PStr "")]> ∅).

(** A row of a merged table with the given DOI cell. *)
Definition doi_row (doi : pyval) (t : string) : row :=
  <["DOI" := doi]> (<["Document title" := PStr t]> ∅).

(** Two spellings of one DOI, a blank DOI, a missing DOI, another DOI. *)
Definition merged_example : list row :=
  [doi_row (PStr "10.1000/A1") "first"; doi_row (PStr "  ") "blank";
   doi_row (PStr " 10.1000/a1 ") "again"; doi_row (PFloat "nan" None) "missing";
   doi_row (PStr "10.1000/b2") "other"].

(** ** Example data

    A table of three papers, and oracles that answer by call number. *)

Definition paper (t a : string) : row :=
  <["Title" := PStr t]> (<["Abstract" := PStr a]> (<["Year" := PInt 2020]> ∅)).

Definition three_papers : dataset :=
  {| columns := ["Title"; "Abstract"; "Year"];
     records := [paper "A" "a"; paper "B" "b"; paper "C" "c"] |}.

Definition one_paper : dataset :=
  {| columns := ["Title"; "Abstract"; "Year"]; records := [paper "A" "a"] |}.

Definition no_paper : dataset :=
  {| columns := ["Title"; "Abstract"; "Year"]; records := [] |}.

Definition example_files (df : dataset) : files :=
  {| default_context_file := Some "criteria"; cleaned_csv := fun _ => Some df |}.

(** The reply the prompt asks for, for papers 0 and 1. *)
Definition good_reply : string :=
  json_text "[{'index':0,'TEST':'INCLUDE'},{'index':1,'TEST':'EXCLUDE','REASON':'TOPIC'}]".

(** A good first reply, then every call fails for good. *)
Definition oracle_then_down (n : nat) (p : prompt) : outcome :=
  match n with
  | 0 => Reply good_reply
  | _ => Failure "400 INVALID_ARGUMENT"
  end.

(** A good first reply, then prose without any bracket. *)
Definition oracle_then_prose (n : nat) (p : prompt) : outcome :=
  match n with
  | 0 => Reply good_reply
  | _ => Reply "I am sorry, I cannot classify these papers."
  end.

(** A reply whose first entry has an index that is no number. *)
Definition oracle_bad_index (n : nat) (p : prompt) : outcome :=
  Reply (json_text
    "[{'index':'zero','TEST':'INCLUDE'},{'index':1,'TEST':'EXCLUDE','REASON':'TOPIC'}]").

(** A reply that names index 7 twice, whatever was asked. *)
Definition oracle_index_seven (n : nat) (p : prompt) : outcome :=
  Reply (json_text
    "[{'index':7,'TEST':'INCLUDE'},{'index':7,'TEST':'EXCLUDE','REASON':'TOPIC'}]").

(** One failure without any marker, then an empty list. *)
Definition oracle_fail_once (n : nat) (p : prompt) : outcome :=
  match n with
  | 0 => Failure "400 INVALID_ARGUMENT"
  | _ => Reply "[]"
  end.

(** Every call fails, without any marker. *)
Definition oracle_down (n : nat) (p : prompt) : outcome := Failure "400 INVALID_ARGUMENT".

Definition no_papers_prompt : prompt := build_prompt "criteria" [].

Section Screening.

(** [json.loads]: the value decoded, or [None] when it raises. *)
Variable json_loads : string -> option pyval.

(** The oracle: the outcome of the [n]-th call of [generate_content] of the
    run (from 0), given the request. *)
Variable generate_content : nat -> prompt -> outcome.

(** Lines 66-78: the wait after a failed call, chosen by the markers in
    [str(e)]. An error that carries neither marker waits for nothing. *)
Definition backoff (error_str : string) (attempt : nat) (w : world) : world :=
  if contains "429" error_str || contains "RESOURCE_EXHAUSTED" error_str
  then sleep 60 w
  else if contains "503" error_str || contains "SERVICE_UNAVAILABLE" error_str
  then sleep (wait_time attempt) w
  else w.

(** Lines 59-83. The loop runs while [attempt < MAX_RETRIES]; [remaining]
    is [MAX_RETRIES - attempt], so the loop is left when it reaches 0. *)
Fixpoint call_model_loop (remaining attempt : nat) (p : prompt) (w : world)
  : result (option string) * world :=
  match remaining with
  | 0 => (Ok None, w)
  | S remaining' =>
      match generate_content (calls w) p with
      | Reply text => (Ok (Some text), tick w)
      | Failure error_str =>
          let w' := backoff error_str attempt (tick w) in
          let attempt' := S attempt in
          if MAX_RETRIES <=? attempt' then (Raise (ModelError error_str), w')
          else call_model_loop remaining' attempt' p w'
      end
  end.

Definition call_model (p : prompt) (w : world) : result (option string) * world :=
  call_model_loop (MAX_RETRIES - 0) 0 p w.

(** The error text carries neither the rate-limit nor the unavailable marker. *)
Definition no_marker (error_str : string) : bool :=
  negb (contains "429" error_str || contains "RESOURCE_EXHAUSTED" error_str
        || contains "503" error_str || contains "SERVICE_UNAVAILABLE" error_str).

(** Lines 85-96. *)
Definition extract_json_array (text : string) : result pyval :=
  let arr_match := re_search "[" "]" text in
  let obj_match :=
    match arr_match with
    | None => re_search "{" "}" text
    | Some _ => None
    end in
  match (match arr_match with Some m => Some m | None => obj_match end) with
  | None => Raise (ValueError "No JSON array/object found in model response.")
  | Some snippet =>
      match json_loads snippet with
      | Some v => Ok v
      | None => Raise JSONDecodeError
      end
  end.

(** Lines 116-118: the parsed reply, which must be a list. A reply without
    text makes [re.search] raise. *)
Definition parse_reply (raw : option string) : result (list pyval) :=
  match raw with
  | None => Raise (TypeError "expected string or bytes-like object")
  | Some text =>
      match extract_json_array text with
      | Raise e => Raise e
      | Ok (PList entries) => Ok entries
      | Ok _ => Raise (ValueError "Model returned JSON that is not a list.")
      end
  end.

(** Line 120: [int(entry.get("index"))]. *)
Definition entry_index (entry : pyval) : result Z :=
  (i <- py_get entry "index" PNone ;; py_int i)%result.

(** Lines 120-123, the body of the loop over the entries. *)
Definition reconcile_entry (results : result_map) (entry : pyval) : result result_map :=
  (idx <- entry_index entry ;;
   t <- py_get entry "TEST" (PStr "") ;;
   let test := upper (py_str t) in
   reason <- (if String.eqb test "EXCLUDE" then py_get entry "REASON" (PStr "")
              else Ok (PStr "")) ;;
   Ok (<[idx := verdict (if String.eqb test "INCLUDE" then "INCLUDE" else "EXCLUDE") reason]>
         results))%result.

(** What lines 121-123 store for an entry with the items [d]: INCLUDE with
    the empty reason when the upper-cased [TEST] is INCLUDE, EXCLUDE with
    the [REASON] of the entry when it is EXCLUDE, and EXCLUDE with the
    empty reason for any other value. *)
Definition entry_verdict (d : list (string * pyval)) : row :=
  let test := upper (py_str (default (PStr "") (items_get d "TEST"))) in
  if String.eqb test "INCLUDE" then verdict "INCLUDE" (PStr "")
  else verdict "EXCLUDE"
         (if String.eqb test "EXCLUDE" then default (PStr "") (items_get d "REASON")
          else PStr "").

(** The integers the entries name, for the entries whose index coerces. *)
Definition entry_indices (entries : list pyval) : list Z :=
  omap (fun entry => match entry_index entry with Ok idx => Some idx | Raise _ => None end)
       entries.

(** Lines 119-123: the entries in order, until one raises. *)
Fixpoint reconcile (entries : list pyval) (results : result_map) : result result_map :=
  match entries with
  | [] => Ok results
  | entry :: rest =>
      match reconcile_entry results entry with
      | Ok results' => reconcile rest results'
      | Raise e => Raise e
      end
  end.

Section Batches.

Variable rows : list row.
Variables title_col abstract_col : string.
Variable context_text : string.
Variable batch_size : nat.

(** Line 101. *)
Definition batch_rows (start : nat) : list row := slice rows start batch_size.

(** Lines 102-108. *)
Definition batch_items (start : nat) : list item :=
  imap (fun i r =>
          {| item_index := start + i;
             item_title := py_str (default (PStr "") (r !! title_col));
             item_abstract := py_str (default (PStr "") (r !! abstract_col)) |})
       (batch_rows start).

(** Lines 101-123, one pass of the batch loop. *)
Definition batch_body (start : nat) (results : result_map) (w : world) : step * world :=
  let p := build_prompt context_text (batch_items start) in
  match call_model p w with
  | (Raise _, w') => (Return results, w')
  | (Ok raw, w') =>
      match parse_reply raw with
      | Raise e => (Abort e, w')
      | Ok parsed =>
          match reconcile parsed results with
          | Raise e => (Abort e, w')
          | Ok results' => (Next results', w')
          end
      end
  end.

(** Lines 100-125, the loop over the batch starts. *)
Fixpoint batch_loop (starts : list nat) (results : result_map) (w : world)
  : result result_map * world :=
  match starts with
  | [] => (Ok results, w)
  | start :: rest =>
      match batch_body start results w with
      | (Next results', w') => batch_loop rest results' w'
      | (Return results', w') => (Ok results', w')
      | (Abort e, w') => (Raise e, w')
      end
  end.

(** The batches of [starts] all ran to the end of the loop body: the
    results and the world after them. *)
Fixpoint batches_done (starts : list nat) (results : result_map) (w : world)
  : option (result_map * world) :=
  match starts with
  | [] => Some (results, w)
  | start :: rest =>
      match batch_body start results w with
      | (Next results', w') => batches_done rest results' w'
      | _ => None
      end
  end.

End Batches.

(** Lines 98-125. Inside the loop the step is a positive [int]. *)
Definition get_filtered_data (rows : list row) (title_col abstract_col context_text : string)
    (batch_size : pyarg) (w : world) : result result_map * world :=
  match py_range (length rows) batch_size with
  | Raise e => (Raise e, w)
  | Ok starts =>
      batch_loop rows title_col abstract_col context_text
        (match batch_size with ArgInt z => Z.to_nat z | _ => 0 end) starts ∅ w
  end.

(** The verdict [v] at [idx] stems from a reply: the oracle gave, at a call
    from [lo] up to [hi], a text to the request of a batch, the text parses
    to a list, and [v] is what an entry of the list with the index [idx]
    stores. *)
Definition from_reply (rows : list row) (title_col abstract_col context_text : string)
    (size lo hi : nat) (idx : Z) (v : row) : Prop :=
  exists n start text entries d,
    lo <= n < hi /\
    generate_content n
      (build_prompt context_text (batch_items rows title_col abstract_col size start))
    = Reply text /\
    parse_reply (Some text) = Ok entries /\
    In (PDict d) entries /\
    entry_index (PDict d) = Ok idx /\
    v = entry_verdict d.

(** The run comes to the batch that starts at [start], every batch before
    it done, with [results] collected and the world [w']. *)
Definition run_reaches (rows : list row) (title_col abstract_col context_text : string)
    (batch_size : Z) (w : world) (start : nat) (results : result_map) (w' : world) : Prop :=
  exists done rest,
    py_range (length rows) (ArgInt batch_size) = Ok (done ++ start :: rest) /\
    batches_done rows title_col abstract_col context_text (Z.to_nat batch_size) done ∅ w
    = Some (results, w').

(** Lines 128-158. A [DataFrame] built from no row has no column, so
    [out_df['TEST']] raises on an empty table; [out_dir.mkdir] needs a
    [Path]. The summary log (lines 160-189) is computed from the two tables
    after they are written and is not modelled. *)
Definition process (df : dataset) (context_text : string) (batch_size out_dir : pyarg)
    (w : world) : result report * world :=
  match find_column "title" (columns df), find_column "abstract" (columns df) with
  | Some title_col, Some abstract_col =>
      let rows := records df in
      match get_filtered_data rows title_col abstract_col context_text batch_size w with
      | (Raise e, w') => (Raise e, w')
      | (Ok results, w') =>
          let out := out_rows rows results in
          match out with
          | [] => (Raise (KeyError "TEST"), w')
          | _ :: _ =>
              match out_dir with
              | ArgPath p =>
                  (Ok {| out_dir_path := p;
                         included_csv := included out;
                         excluded_csv := excluded out |}, w')
              | _ => (Raise (AttributeError "object has no attribute 'mkdir'"), w')
              end
          end
      end
  | _, _ =>
      (Raise (SystemExit ("Input CSV must contain Title and Abstract columns. Found: "
                          +:+ join_comma (columns df))), w)
  end.

(** Lines 191-206. *)
Definition filter_papers_gemini (fs : files) (folder_name : string)
    (context batch_size out_dir : pyarg) (w : world) : result report * world :=
  match context, default_context_file fs with
  | ArgNone, Some text =>
      match cleaned_csv fs folder_name with
      | None =>
          (Raise (SystemExit ("Input cleaned CSV not found: data/clean/" +:+ folder_name
                              +:+ "/cleaned.csv")), w)
      | Some df =>
          let out_dir' :=
            match out_dir with
            | ArgNone => ArgPath ("data/filtered/" +:+ folder_name)
            | d => d
            end in
          process df text batch_size out_dir' w
      end
  | _, _ =>
      (Raise (SystemExit "Either --context-file (existing) or --context-text must be provided."),
       w)
  end.

(** Lines 208-214: the arguments are passed by position, so the batch size
    lands in [context] and the output directory in [batch_size]. *)
Definition main (fs : files) (extraction : string) (batch : Z) (w : world)
  : result report * world :=
  filter_papers_gemini fs extraction (ArgInt batch)
    (ArgPath ("data/filtered/" +:+ extraction)) ArgNone w.

(** ** The batch partition *)

Lemma range_from_lookup fuel start stop step k s :
  range_from fuel start stop step !! k = Some s -> s = start + k * step /\ s < stop.
Proof.
  revert start k. induction fuel as [|fuel IH]; intros start k; simpl; [done|].
  destruct (Nat.ltb_spec start stop) as [Hlt|Hge]; [|done].
  destruct k as [|k]; simpl.
  - intros [= <-]. lia.
  - intros H. apply IH in H. lia.
Qed.

Lemma range_from_length fuel start stop step :
  0 < step -> stop - start <= fuel ->
  length (range_from fuel start stop step) = (stop - start + step - 1) / step.
Proof.
  intros Hstep. revert start. induction fuel as [|fuel IH]; intros start Hfuel; simpl.
  - replace (stop - start + step - 1) with (step - 1) by lia.
    symmetry. apply Nat.div_small. lia.
  - destruct (Nat.ltb_spec start stop) as [Hlt|Hge]; simpl.
    + rewrite IH by lia.
      replace (stop - start + step - 1) with ((stop - start - 1) + 1 * step) by lia.
      rewrite Nat.div_add by lia.
      destruct (Nat.le_gt_cases step (stop - start)) as [Hbig|Hsmall].
      * replace (stop - (start + step) + step - 1) with (stop - start - 1) by lia. lia.
      * replace (stop - (start + step) + step - 1) with (step - 1) by lia.
        rewrite !Nat.div_small by lia. lia.
    + replace (stop - start + step - 1) with (step - 1) by lia.
      symmetry. apply Nat.div_small. lia.
Qed.

Lemma range_from_concat {A : Type} (rows : list A) fuel start size :
  0 < size -> length rows - start <= fuel ->
  concat (List.map (fun s => slice rows s size) (range_from fuel start (length rows) size))
  = drop start rows.
Proof.
  intros Hsize. revert start. induction fuel as [|fuel IH]; intros start Hfuel; simpl.
  - rewrite drop_ge by lia. done.
  - destruct (Nat.ltb_spec start (length rows)) as [Hlt|Hge]; simpl.
    + rewrite IH by lia. unfold slice.
      rewrite <- drop_drop. apply take_drop.
    + rewrite drop_ge by lia. done.
Qed.

Lemma slice_length {A : Type} (rows : list A) start size :
  length (slice rows start size) = Nat.min size (length rows - start).
Proof. unfold slice. rewrite length_take, length_drop. done. Qed.

Lemma slice_lookup {A : Type} (rows : list A) start size i :
  slice rows start size !! i = if decide (i < size) then rows !! (start + i) else None.
Proof.
  unfold slice. destruct (decide (i < size)).
  - rewrite lookup_take_lt by done. apply lookup_drop.
  - apply lookup_take_ge. lia.
Qed.

Lemma range_from_seq {A : Type} (rows : list A) fuel start size :
  0 < size -> length rows - start <= fuel ->
  concat (List.map (fun s => seq s (length (slice rows s size)))
            (range_from fuel start (length rows) size))
  = seq start (length rows - start).
Proof.
  intros Hsize. revert start. induction fuel as [|fuel IH]; intros start Hfuel; simpl.
  - by replace (length rows - start) with 0 by lia.
  - destruct (Nat.ltb_spec start (length rows)) as [Hlt|Hge]; simpl.
    + rewrite IH by lia. rewrite slice_length.
      destruct (Nat.le_gt_cases size (length rows - start)) as [Hbig|Hsmall].
      * rewrite Nat.min_l by lia.
        transitivity (seq start (size + (length rows - (start + size)))).
        -- by rewrite seq_app.
        -- f_equal. lia.
      * rewrite Nat.min_r by lia.
        replace (length rows - (start + size)) with 0 by lia.
        simpl. apply app_nil_r.
    + by replace (length rows - start) with 0 by lia.
Qed.

(** The items of a batch, one per row of the batch, built from the row. *)
Lemma batch_items_lookup (rows : list row) (title_col abstract_col : string)
    (size start i : nat) :
  batch_items rows title_col abstract_col size start !! i
  = (fun r => {| item_index := start + i;
                 item_title := py_str (default (PStr "") (r !! title_col));
                 item_abstract := py_str (default (PStr "") (r !! abstract_col)) |})
    <$> batch_rows rows size start !! i.
Proof. unfold batch_items. by rewrite list_lookup_imap. Qed.

Lemma batch_items_length (rows : list row) (title_col abstract_col : string)
    (size start : nat) :
  length (batch_items rows title_col abstract_col size start)
  = length (batch_rows rows size start).
Proof. unfold batch_items. apply length_imap. Qed.

Lemma batch_items_index (rows : list row) (title_col abstract_col : string)
    (size start : nat) :
  List.map item_index (batch_items rows title_col abstract_col size start)
  = seq start (length (batch_rows rows size start)).
Proof.
  apply list_eq. intros i.
  change (List.map item_index (batch_items rows title_col abstract_col size start))
    with (item_index <$> batch_items rows title_col abstract_col size start).
  rewrite list_lookup_fmap, batch_items_lookup.
  destruct (batch_rows rows size start !! i) as [r|] eqn:Hr; simpl.
  - symmetry. apply lookup_seq. split; [done|]. by apply lookup_lt_Some with r.
  - symmetry. apply lookup_seq_ge. by apply lookup_ge_None.
Qed.

(** C7. For a batch size [B > 0] the partitioner yields [ceil(L/B)] batches
    that are contiguous slices of at most [B] rows (exactly [B] for every
    batch but the last, and never empty); concatenated in order they give
    the input back. Every row of a batch gets one item, in the order of the
    rows, which carries the 0-based position the row has in the input and
    the [str] of its title and abstract; a batch has no other item, and
    these items are the papers of the request built for the batch. Over
    the batches in order the indices of the items are 0, 1, ..., L - 1:
    no record is skipped or sent twice. *)
Theorem batch_partition (rows : list row) (title_col abstract_col : string) (B : nat) :
  0 < B ->
  exists starts,
    py_range (length rows) (ArgInt (Z.of_nat B)) = Ok starts /\
    length starts = (length rows + B - 1) / B /\
    concat (List.map (batch_rows rows B) starts) = rows /\
    (forall k start, starts !! k = Some start ->
       start = k * B /\
       0 < length (batch_rows rows B start) <= B /\
       (S k < length starts -> length (batch_rows rows B start) = B)) /\
    (forall k start i it,
       starts !! k = Some start ->
       batch_items rows title_col abstract_col B start !! i = Some it ->
       item_index it = k * B + i /\
       exists r, rows !! (k * B + i) = Some r /\
                 item_title it = py_str (default (PStr "") (r !! title_col)) /\
                 item_abstract it = py_str (default (PStr "") (r !! abstract_col))) /\
    (forall k start i r,
       starts !! k = Some start ->
       batch_rows rows B start !! i = Some r ->
       rows !! (k * B + i) = Some r /\
       batch_items rows title_col abstract_col B start !! i
       = Some {| item_index := k * B + i;
                 item_title := py_str (default (PStr "") (r !! title_col));
                 item_abstract := py_str (default (PStr "") (r !! abstract_col)) |}) /\
    (forall start context_text,
       length (batch_items rows title_col abstract_col B start)
       = length (batch_rows rows B start) /\
       prompt_papers
         (build_prompt context_text (batch_items rows title_col abstract_col B start))
       = batch_items rows title_col abstract_col B start) /\
    concat (List.map (fun start =>
                        List.map item_index
                          (batch_items rows title_col abstract_col B start)) starts)
    = seq 0 (length rows).
Proof.
  intros HB. exists (range_from (length rows) 0 (length rows) B).
  split; [|split; [|split; [|split; [|split; [|split; [|split]]]]]].
  - unfold py_range.
    destruct (Z.eqb_spec (Z.of_nat B) 0); [lia|].
    destruct (Z.ltb_spec (Z.of_nat B) 0); [lia|].
    by rewrite Nat2Z.id.
  - rewrite range_from_length by lia. f_equal. lia.
  - unfold batch_rows. rewrite (range_from_concat rows) by lia. done.
  - intros k start Hk.
    pose proof (range_from_lookup _ _ _ _ _ _ Hk) as [-> Hlt].
    unfold batch_rows. rewrite slice_length.
    split; [lia|]. split; [lia|].
    intros Hnext.
    destruct (lookup_lt_is_Some_2 _ _ Hnext) as [start' Hk'].
    apply range_from_lookup in Hk'. simpl in *. lia.
  - intros k start i it Hk Hit.
    pose proof (range_from_lookup _ _ _ _ _ _ Hk) as [-> _].
    unfold batch_items, batch_rows in Hit.
    rewrite list_lookup_imap, slice_lookup in Hit.
    destruct (decide (i < B)); [|done].
    simpl in *.
    destruct (rows !! (k * B + i)) as [r|] eqn:Hr; [|done].
    simpl in Hit. injection Hit as <-. simpl. eauto.
  - intros k start i r Hk Hr.
    pose proof (range_from_lookup _ _ _ _ _ _ Hk) as [-> _].
    rewrite batch_items_lookup, Hr. simpl. split; [|done].
    unfold batch_rows in Hr. rewrite slice_lookup in Hr.
    by destruct (decide (i < B)).
  - intros start context_text. split; [apply batch_items_length|done].
  - transitivity (seq 0 (length rows - 0)); [|f_equal; lia].
    rewrite <- (range_from_seq rows (length rows) 0 B) by lia.
    f_equal. apply map_ext. intros start. apply batch_items_index.
Qed.

(** ** The retry loop *)

Lemma backoff_no_marker (error_str : string) (attempt : nat) (w : world) :
  no_marker error_str = true -> backoff error_str attempt w = w.
Proof.
  unfold no_marker, backoff. intros H.
  destruct (contains "429" error_str), (contains "RESOURCE_EXHAUSTED" error_str),
    (contains "503" error_str), (contains "SERVICE_UNAVAILABLE" error_str);
    simpl in *; congruence.
Qed.

Lemma backoff_calls (error_str : string) (attempt : nat) (w : world) :
  calls (backoff error_str attempt w) = calls w.
Proof. unfold backoff. repeat case_match; reflexivity. Qed.

Lemma call_model_loop_returns_text (remaining attempt : nat) (p : prompt) (w : world) :
  0 < remaining -> remaining + attempt = MAX_RETRIES ->
  (exists text w', call_model_loop remaining attempt p w = (Ok (Some text), w')) \/
  (exists error_str w', call_model_loop remaining attempt p w = (Raise (ModelError error_str), w')).
Proof.
  revert attempt w. induction remaining as [|remaining IH]; intros attempt w Hpos Hsum; [lia|].
  cbn [call_model_loop].
  destruct (generate_content (calls w) p) as [text|error_str]; [eauto|].
  destruct (Nat.leb_spec MAX_RETRIES (S attempt)) as [Hle|Hgt]; [eauto|].
  apply IH; lia.
Qed.

(** [call_model] never falls off its loop: it returns a text or raises what
    the oracle raised. *)
Lemma call_model_returns_text (p : prompt) (w : world) :
  (exists text w', call_model p w = (Ok (Some text), w')) \/
  (exists error_str w', call_model p w = (Raise (ModelError error_str), w')).
Proof. apply call_model_loop_returns_text; unfold MAX_RETRIES; lia. Qed.

(** Every pass through the loop calls the oracle. *)
Lemma call_model_loop_calls (remaining attempt : nat) (p : prompt) (w : world) :
  0 < remaining -> calls w < calls (snd (call_model_loop remaining attempt p w)).
Proof.
  revert attempt w. induction remaining as [|remaining IH]; intros attempt w Hpos; [lia|].
  cbn [call_model_loop].
  destruct (generate_content (calls w) p) as [text|error_str]; [cbn; lia|].
  destruct (MAX_RETRIES <=? S attempt).
  - cbn [snd]. rewrite backoff_calls. cbn. lia.
  - destruct remaining as [|remaining].
    + cbn [call_model_loop snd]. rewrite backoff_calls. cbn. lia.
    + specialize (IH (S attempt) (backoff error_str attempt (tick w))).
      rewrite backoff_calls in IH. cbn [tick calls] in IH. lia.
Qed.

(** C5, as the code has it. After an error without any marker [call_model]
    does not sleep and calls the oracle again at once: a second call is
    always made, the text of a retry that succeeds is returned, and the
    error reaches the caller only as the third failure in a row. *)
Theorem unmarked_error_is_retried (p : prompt) (w : world) (e0 : string) :
  generate_content (calls w) p = Failure e0 ->
  no_marker e0 = true ->
  calls w + 2 <= calls (snd (call_model p w)) /\
  (forall text,
     generate_content (S (calls w)) p = Reply text ->
     call_model p w = (Ok (Some text), {| calls := calls w + 2; slept := slept w |})) /\
  (forall e1 e2,
     generate_content (S (calls w)) p = Failure e1 -> no_marker e1 = true ->
     generate_content (S (S (calls w))) p = Failure e2 -> no_marker e2 = true ->
     call_model p w = (Raise (ModelError e2), {| calls := calls w + 3; slept := slept w |})).
Proof.
  intros H0 Hm0.
  assert (call_model p w = call_model_loop 2 1 p (tick w)) as ->.
  { unfold call_model. cbn [call_model_loop Nat.sub MAX_RETRIES].
    rewrite H0, backoff_no_marker by done. reflexivity. }
  split; [|split].
  - pose proof (call_model_loop_calls 2 1 p (tick w)) as H. cbn [tick calls] in H. lia.
  - intros text H1. cbn [call_model_loop tick calls slept]. rewrite H1.
    unfold tick. cbn. do 2 f_equal. lia.
  - intros e1 e2 H1 Hm1 H2 Hm2. cbn [call_model_loop tick calls slept].
    rewrite H1, backoff_no_marker by done.
    cbn [MAX_RETRIES Nat.leb tick calls slept].
    rewrite H2, backoff_no_marker by done.
    unfold tick. cbn. do 2 f_equal. lia.
Qed.

(** ** The bracket search *)


Lemma from_first_some (o : ascii) (text s : string) :
  from_first o text = Some s ->
  exists pre rest, text = pre +:+ String o rest /\ s = String o rest /\ has_char o pre = false.
Proof.
  induction text as [|a text IH]; simpl; [done|].
  destruct (Ascii.eqb_spec a o) as [->|Hne].
  - intros [= <-]. by exists EmptyString, text.
  - intros H. destruct (IH H) as (pre & rest & -> & -> & Hpre).
    exists (String a pre), rest. simpl.
    split; [done|]. split; [done|].
    rewrite Hpre. by destruct (Ascii.eqb_spec a o).
Qed.



Lemma upto_last_some (c : ascii) (s t : string) :
  upto_last c s = Some t ->
  exists mid post,
    s = mid +:+ String c post /\ t = mid +:+ String c EmptyString /\ has_char c post = false.
Proof.
  revert t. induction s as [|a s IH]; simpl; [done|]. intros t.
  destruct (upto_last c s) as [t'|] eqn:Hs.
  - intros [= <-]. destruct (IH t' eq_refl) as (mid & post & -> & -> & Hpost).
    by exists (String a mid), post.
  - destruct (Ascii.eqb_spec a c) as [->|Hne]; [|done].
    intros [= <-]. exists EmptyString, s. simpl. split; [done|]. split; [done|].
    clear IH. induction s as [|b s IH]; simpl in *; [done|].
    destruct (upto_last c s); [done|].
    destruct (Ascii.eqb_spec b c); [done|]. simpl. auto.
Qed.




Lemma re_search_some (o c : ascii) (text m : string) :
  re_search o c text = Some m ->
  exists pre mid post,
    text = pre +:+ String o (mid +:+ String c post) /\
    m = String o (mid +:+ String c EmptyString) /\
    has_char o pre = false /\ has_char c post = false.
Proof.
  unfold re_search. destruct (from_first o text) as [s|] eqn:Hs; [|done].
  destruct (from_first_some _ _ _ Hs) as (pre & rest & -> & -> & Hpre).
  destruct (upto_last c rest) as [t|] eqn:Ht; [|done].
  destruct (upto_last_some _ _ _ Ht) as (mid & post & -> & -> & Hpost).
  intros [= <-]. by exists pre, mid, post.
Qed.

Lemma re_search_none (o c : ascii) (text : string) :
  (forall pre mid post, text <> pre +:+ String o (mid +:+ String c post)) ->
  re_search o c text = None.
Proof.
  intros Hno. destruct (re_search o c text) as [m|] eqn:Hm; [|done].
  destruct (re_search_some _ _ _ _ Hm) as (pre & mid & post & -> & _).
  by destruct (Hno pre mid post).
Qed.


(** ** Reconciliation *)

Lemma reconcile_app (pre post : list pyval) (results : result_map) :
  reconcile (pre ++ post) results
  = match reconcile pre results with
    | Ok results' => reconcile post results'
    | Raise e => Raise e
    end.
Proof.
  revert results. induction pre as [|entry pre IH]; intros results; simpl; [done|].
  destruct (reconcile_entry results entry); [apply IH|done].
Qed.

Lemma reconcile_entry_bad_index (results : result_map) (entry : pyval) (e : exn) :
  entry_index entry = Raise e -> reconcile_entry results entry = Raise e.
Proof. unfold reconcile_entry. by intros ->. Qed.

(** What an entry writes does not depend on the map it is written to. *)
Lemma reconcile_entry_insert (results : result_map) (entry : pyval) (results' : result_map) :
  reconcile_entry results entry = Ok results' ->
  exists idx v,
    entry_index entry = Ok idx /\
    forall results0, reconcile_entry results0 entry = Ok (<[idx := v]> results0).
Proof.
  unfold reconcile_entry.
  destruct (entry_index entry) as [idx|e]; simpl; [|done].
  destruct (py_get entry "TEST" (PStr "")) as [t|e]; simpl; [|done].
  destruct (if String.eqb (upper (py_str t)) "EXCLUDE"
            then py_get entry "REASON" (PStr "") else Ok (PStr "")) as [reason|e];
    simpl; [|done].
  intros _. eauto.
Qed.

Lemma reconcile_untouched (entries : list pyval) (results results' : result_map) (k : Z) :
  reconcile entries results = Ok results' ->
  k ∉ entry_indices entries ->
  results' !! k = results !! k.
Proof.
  revert results. induction entries as [|entry rest IH]; intros results; simpl.
  - by intros [= <-].
  - destruct (reconcile_entry results entry) as [r1|e] eqn:H1; [|done].
    destruct (reconcile_entry_insert _ _ _ H1) as (idx & v & Hidx & Hins).
    rewrite Hins in H1. injection H1 as <-.
    unfold entry_indices. simpl. rewrite Hidx. fold (entry_indices rest).
    intros Hrest Hk. apply not_elem_of_cons in Hk as [Hne Hk].
    rewrite (IH _ Hrest Hk). by apply lookup_insert_ne.
Qed.

Lemma reconcile_dom (entries : list pyval) (results results' : result_map) :
  reconcile entries results = Ok results' ->
  dom results' = dom results ∪ list_to_set (entry_indices entries).
Proof.
  revert results. induction entries as [|entry rest IH]; intros results; simpl.
  - intros [= <-]. set_solver.
  - destruct (reconcile_entry results entry) as [r1|e] eqn:H1; [|done].
    destruct (reconcile_entry_insert _ _ _ H1) as (idx & v & Hidx & Hins).
    rewrite Hins in H1. injection H1 as <-.
    unfold entry_indices. simpl. rewrite Hidx. fold (entry_indices rest).
    intros Hrest. rewrite (IH _ Hrest), dom_insert_L. set_solver.
Qed.

(** C9, as the code has it. Reconciling a parsed list adds to the keys of
    the result map the integer every entry names, whether or not a record
    with that index was sent, and leaves the other keys as they were; where
    several writes name one index the last one stands, whatever verdict the
    map held there before. *)
Theorem reconcile_last_write_wins (entries : list pyval) (results results' : result_map) :
  reconcile entries results = Ok results' ->
  dom results' = dom results ∪ list_to_set (entry_indices entries) /\
  (forall k, k ∉ entry_indices entries -> results' !! k = results !! k) /\
  (forall pre entry post idx v,
     entries = pre ++ entry :: post ->
     reconcile_entry ∅ entry = Ok {[idx := v]} ->
     idx ∉ entry_indices post ->
     results' !! idx = Some v).
Proof.
  intros H. split; [by apply reconcile_dom|]. split.
  - intros k Hk. by apply (reconcile_untouched entries).
  - intros pre entry post idx v -> Hentry Hpost.
    rewrite reconcile_app in H.
    destruct (reconcile pre results) as [r0|e]; [|done]. simpl in H.
    destruct (reconcile_entry r0 entry) as [r1|e] eqn:H1; [|done].
    destruct (reconcile_entry_insert _ _ _ H1) as (idx' & v' & _ & Hins).
    rewrite Hins in H1, Hentry. injection H1 as <-.
    assert (<[idx' := v']> (∅ : result_map) = {[idx := v]}) as Heq by congruence.
    assert (idx' = idx /\ v' = v) as [-> ->].
    { assert ((<[idx' := v']> (∅ : result_map)) !! idx = Some v) as Hl
        by (rewrite Heq; apply lookup_singleton_eq).
      apply lookup_insert_Some in Hl as [[-> ->]|[_ Hl]]; [done|].
      by rewrite lookup_empty in Hl. }
    rewrite (reconcile_untouched _ _ _ _ H Hpost). apply lookup_insert_eq.
Qed.

(** C4, as the code has it. The [TEST] value is upper-cased before it is
    compared: the lowercase string include gives the decision INCLUDE, as
    does every value whose [str] upper-cases to INCLUDE, whatever letters
    [upper] maps there; every other value gives EXCLUDE, with the [REASON]
    of the entry when the upper-cased value is EXCLUDE and with the empty
    reason otherwise. A missing [TEST] counts as the empty string. *)
Theorem test_is_upper_cased (results : result_map) (d : list (string * pyval)) (idx : Z) :
  entry_index (PDict d) = Ok idx ->
  (items_get d "TEST" = Some (PStr "include") ->
   reconcile_entry results (PDict d) = Ok (<[idx := verdict "INCLUDE" (PStr "")]> results)) /\
  (forall t,
     py_get (PDict d) "TEST" (PStr "") = Ok t -> upper (py_str t) = "INCLUDE" ->
     reconcile_entry results (PDict d) = Ok (<[idx := verdict "INCLUDE" (PStr "")]> results)) /\
  (forall t,
     py_get (PDict d) "TEST" (PStr "") = Ok t -> upper (py_str t) <> "INCLUDE" ->
     reconcile_entry results (PDict d)
     = Ok (<[idx := verdict "EXCLUDE"
                      (if String.eqb (upper (py_str t)) "EXCLUDE"
                       then default (PStr "") (items_get d "REASON")
                       else PStr "")]> results)).
Proof.
  intros Hidx.
  assert (forall t,
     py_get (PDict d) "TEST" (PStr "") = Ok t -> upper (py_str t) = "INCLUDE" ->
     reconcile_entry results (PDict d) = Ok (<[idx := verdict "INCLUDE" (PStr "")]> results))
    as Hupper.
  { intros t Ht Hup. unfold reconcile_entry. rewrite Hidx, Ht. cbn [bind].
    rewrite Hup. reflexivity. }
  split; [|split].
  - intros Hs. apply (Hupper (PStr "include")).
    + cbn [py_get]. by rewrite Hs.
    + cbn [py_str]. by rewrite upper_ascii_text.
  - exact Hupper.
  - intros t Ht Hup. apply String.eqb_neq in Hup.
    unfold reconcile_entry. rewrite Hidx, Ht. cbn [bind]. rewrite Hup.
    destruct (String.eqb (upper (py_str t)) "EXCLUDE"); [|reflexivity].
    cbn [py_get bind]. by destruct (items_get d "REASON").
Qed.

(** ** Exceptions in the batch loop *)

Section Run.

Variable df : dataset.
Variables title_col abstract_col context_text : string.
Variable B : Z.
Variable w : world.

Hypothesis title_found : find_column "title" (columns df) = Some title_col.
Hypothesis abstract_found : find_column "abstract" (columns df) = Some abstract_col.

Lemma batch_loop_done (starts rest : list nat) (results results1 : result_map) (w0 w1 : world) :
  batches_done (records df) title_col abstract_col context_text (Z.to_nat B) starts results w0
  = Some (results1, w1) ->
  batch_loop (records df) title_col abstract_col context_text (Z.to_nat B)
    (starts ++ rest) results w0
  = batch_loop (records df) title_col abstract_col context_text (Z.to_nat B) rest results1 w1.
Proof.
  revert results w0. induction starts as [|start starts IH]; intros results w0; simpl.
  - by intros [= <- <-].
  - destruct (batch_body _ _ _ _ _ start results w0) as [[r|r|e] w']; [apply IH|done|done].
Qed.

(** An exception in the body of the batch loop leaves [get_filtered_data]
    and [process]: nothing is written. *)
Lemma abort_propagates (start : nat) (results : result_map) (w1 w2 : world) (e : exn)
    (out_dir : pyarg) :
  run_reaches (records df) title_col abstract_col context_text B w start results w1 ->
  batch_body (records df) title_col abstract_col context_text (Z.to_nat B) start results w1
  = (Abort e, w2) ->
  process df context_text (ArgInt B) out_dir w = (Raise e, w2).
Proof.
  intros (done & rest & Hrange & Hdone) Hbody.
  unfold process. rewrite title_found, abstract_found.
  unfold get_filtered_data. rewrite Hrange.
  rewrite (batch_loop_done _ _ _ _ _ _ Hdone). simpl. by rewrite Hbody.
Qed.

(** A model call that fails for good ends the loop with what was collected. *)
Lemma model_failure_returns (start : nat) (results : result_map) (w1 w2 : world) (e : exn) :
  run_reaches (records df) title_col abstract_col context_text B w start results w1 ->
  call_model (build_prompt context_text
                (batch_items (records df) title_col abstract_col (Z.to_nat B) start)) w1
  = (Raise e, w2) ->
  get_filtered_data (records df) title_col abstract_col context_text (ArgInt B) w
  = (Ok results, w2).
Proof.
  intros (done & rest & Hrange & Hdone) Hcall.
  unfold get_filtered_data. rewrite Hrange.
  rewrite (batch_loop_done _ _ _ _ _ _ Hdone). simpl.
  unfold batch_body. by rewrite Hcall.
Qed.

(** C1, as the code has it. The reply of a batch that cannot be parsed (no
    bracket pair, a snippet that does not decode, a value that is no list)
    is not caught at the loop: the exception leaves [get_filtered_data] and
    [process], no further batch is issued and no file is written, so the
    verdicts of the batches before it are lost with it. *)
Theorem parse_error_aborts_run (start : nat) (results : result_map) (w1 w2 : world)
    (raw : option string) (e : exn) (out_dir : pyarg) :
  run_reaches (records df) title_col abstract_col context_text B w start results w1 ->
  call_model (build_prompt context_text
                (batch_items (records df) title_col abstract_col (Z.to_nat B) start)) w1
  = (Ok raw, w2) ->
  parse_reply raw = Raise e ->
  get_filtered_data (records df) title_col abstract_col context_text (ArgInt B) w
  = (Raise e, w2) /\
  process df context_text (ArgInt B) out_dir w = (Raise e, w2).
Proof.
  intros Hreach Hcall Hparse.
  assert (batch_body (records df) title_col abstract_col context_text (Z.to_nat B)
            start results w1 = (Abort e, w2)) as Hbody
    by (unfold batch_body; by rewrite Hcall, Hparse).
  split; [|by apply (abort_propagates start results w1)].
  destruct Hreach as (done & rest & Hrange & Hdone).
  unfold get_filtered_data. rewrite Hrange.
  rewrite (batch_loop_done _ _ _ _ _ _ Hdone). simpl. by rewrite Hbody.
Qed.

(** C3, as the code has it. An entry whose index does not coerce to an
    integer makes the reconciler raise at that entry: the entries before it
    have been applied, the entries after it are never read, and the
    exception, which nothing catches, ends the batch and the run without
    any file written. *)
Theorem bad_index_aborts_run (start : nat) (results results' : result_map) (w1 w2 : world)
    (raw : option string) (pre post : list pyval) (bad : pyval) (e : exn) (out_dir : pyarg) :
  run_reaches (records df) title_col abstract_col context_text B w start results w1 ->
  call_model (build_prompt context_text
                (batch_items (records df) title_col abstract_col (Z.to_nat B) start)) w1
  = (Ok raw, w2) ->
  parse_reply raw = Ok (pre ++ bad :: post) ->
  reconcile pre results = Ok results' ->
  entry_index bad = Raise e ->
  reconcile (pre ++ bad :: post) results = Raise e /\
  process df context_text (ArgInt B) out_dir w = (Raise e, w2).
Proof.
  intros Hreach Hcall Hparse Hpre Hbad.
  assert (reconcile (pre ++ bad :: post) results = Raise e) as Hrec.
  { rewrite reconcile_app, Hpre. simpl. by rewrite (reconcile_entry_bad_index _ _ _ Hbad). }
  split; [done|].
  apply (abort_propagates start results w1); [done|].
  unfold batch_body. by rewrite Hcall, Hparse, Hrec.
Qed.

End Run.

(** ** Finalization *)

Lemma out_rows_lookup (rows : list row) (results : result_map) (i : nat) :
  out_rows rows results !! i
  = (fun orig => default default_verdict (results !! Z.of_nat i) ∪ orig) <$> rows !! i.
Proof. unfold out_rows. by rewrite list_lookup_imap. Qed.

Lemma out_rows_length (rows : list row) (results : result_map) :
  length (out_rows rows results) = length rows.
Proof. unfold out_rows. apply length_imap. Qed.

Lemma default_verdict_union (orig : row) :
  default_verdict ∪ orig = <["TEST" := PStr "INCLUDE"]> orig.
Proof. unfold default_verdict. symmetry. apply insert_union_singleton_l. Qed.

Lemma included_In (out : list row) (r : row) :
  In r out -> test_is "INCLUDE" r = true -> In (delete "TEST" r) (included out).
Proof.
  intros Hin Htest. unfold included. apply in_map. apply filter_In. done.
Qed.

(** C8. A record whose index has no verdict when the batch loop returns is
    finalized with the default verdict, which is INCLUDE and carries no
    reason: its merged row is the original row with the decision INCLUDE
    laid over it, and the original row is written to [included.csv]. *)
Theorem fail_open_default (df : dataset) (context_text : string) (batch_size : pyarg)
    (p : string) (w w' : world) (title_col abstract_col : string)
    (results : result_map) (i : nat) (orig : row) :
  find_column "title" (columns df) = Some title_col ->
  find_column "abstract" (columns df) = Some abstract_col ->
  get_filtered_data (records df) title_col abstract_col context_text batch_size w
  = (Ok results, w') ->
  records df !! i = Some orig ->
  results !! Z.of_nat i = None ->
  exists rep,
    process df context_text batch_size (ArgPath p) w = (Ok rep, w') /\
    default default_verdict (results !! Z.of_nat i) = default_verdict /\
    default_verdict !! "TEST" = Some (PStr "INCLUDE") /\
    default_verdict !! "REASON" = None /\
    out_rows (records df) results !! i = Some (<["TEST" := PStr "INCLUDE"]> orig) /\
    In (delete "TEST" orig) (included_csv rep).
Proof.
  intros Htitle Habstract Hrun Hrow Hnone.
  assert (out_rows (records df) results !! i = Some (<["TEST" := PStr "INCLUDE"]> orig))
    as Hout.
  { rewrite out_rows_lookup, Hrow, Hnone. simpl. by rewrite default_verdict_union. }
  unfold process. rewrite Htitle, Habstract, Hrun.
  destruct (out_rows (records df) results) as [|r out] eqn:Hrows; [done|].
  eexists. split; [reflexivity|].
  split; [by rewrite Hnone|]. split; [done|]. split; [done|]. split; [done|].
  simpl. rewrite <- (delete_insert_eq orig "TEST" (PStr "INCLUDE")).
  apply included_In.
  - apply list_elem_of_In. by apply list_elem_of_lookup_2 with i.
  - unfold test_is. by rewrite lookup_insert_eq.
Qed.

(** C10 at the empty table. Without any row no batch is issued, the merged
    table has no column, and selecting the decision column raises before a
    file is written: whatever the columns and the batch size, a table
    without rows ends in an exception and never in a report. *)
Theorem empty_table_raises (cols : list string) (context_text : string) (b : positive)
    (out_dir : pyarg) (w : world) :
  process {| columns := cols; records := [] |} context_text (ArgInt (Z.pos b)) out_dir w
  = match find_column "title" cols, find_column "abstract" cols with
    | Some _, Some _ => (Raise (KeyError "TEST"), w)
    | _, _ =>
        (Raise (SystemExit ("Input CSV must contain Title and Abstract columns. Found: "
                            +:+ join_comma cols)), w)
    end.
Proof.
  unfold process. cbn [columns records].
  destruct (find_column "title" cols), (find_column "abstract" cols); reflexivity.
Qed.

(** ** The context check *)

(** C2 at a literal context. Whatever the files hold, a context string
    passed by the caller takes the else branch, which exits. *)
Theorem literal_context_exits (fs : files) (folder_name text : string)
    (batch_size out_dir : pyarg) (w : world) :
  filter_papers_gemini fs folder_name (ArgStr text) batch_size out_dir w
  = (Raise (SystemExit "Either --context-file (existing) or --context-text must be provided."),
     w).
Proof. reflexivity. Qed.

(** With no context argument and the default file in place, the run goes on
    to [process] with the text of the file. *)
Lemma default_context_proceeds (fs : files) (folder_name text : string) (df : dataset)
    (batch_size : pyarg) (p : string) (w : world) :
  default_context_file fs = Some text ->
  cleaned_csv fs folder_name = Some df ->
  filter_papers_gemini fs folder_name ArgNone batch_size (ArgPath p) w
  = process df text batch_size (ArgPath p) w.
Proof. intros Hctx Hcsv. unfold filter_papers_gemini. by rewrite Hctx, Hcsv. Qed.

(** With neither a context argument nor the default file, the run exits. *)
Lemma no_context_exits (fs : files) (folder_name : string) (batch_size out_dir : pyarg)
    (w : world) :
  default_context_file fs = None ->
  filter_papers_gemini fs folder_name ArgNone batch_size out_dir w
  = (Raise (SystemExit "Either --context-file (existing) or --context-text must be provided."),
     w).
Proof. intros Hctx. unfold filter_papers_gemini. by rewrite Hctx. Qed.

(** The command line of the module passes the batch size where the context
    is expected: it exits whatever the files hold. *)
Lemma main_always_exits (fs : files) (extraction : string) (batch : Z) (w : world) :
  main fs extraction batch w
  = (Raise (SystemExit "Either --context-file (existing) or --context-text must be provided."),
     w).
Proof. reflexivity. Qed.

(** ** Every row goes to one of the two files *)

Lemma reconcile_entry_decided (results results' : result_map) (entry : pyval) :
  map_Forall (fun _ v => decided v) results ->
  reconcile_entry results entry = Ok results' ->
  map_Forall (fun _ v => decided v) results'.
Proof.
  intros Hwf. unfold reconcile_entry.
  destruct (entry_index entry) as [idx|e]; simpl; [|done].
  destruct (py_get entry "TEST" (PStr "")) as [t|e]; simpl; [|done].
  destruct (if String.eqb (upper (py_str t)) "EXCLUDE"
            then py_get entry "REASON" (PStr "") else Ok (PStr "")) as [reason|e];
    simpl; [|done].
  intros [= <-]. apply map_Forall_insert_2; [|done].
  unfold decided, verdict. rewrite lookup_insert_eq.
  destruct (String.eqb (upper (py_str t)) "INCLUDE"); auto.
Qed.

Lemma reconcile_decided (entries : list pyval) (results results' : result_map) :
  map_Forall (fun _ v => decided v) results ->
  reconcile entries results = Ok results' ->
  map_Forall (fun _ v => decided v) results'.
Proof.
  revert results. induction entries as [|entry rest IH]; intros results Hwf; simpl.
  - by intros [= <-].
  - destruct (reconcile_entry results entry) as [r1|e] eqn:H1; [|done].
    apply IH. by apply (reconcile_entry_decided results _ entry).
Qed.

Lemma batch_loop_decided (rows : list row) (title_col abstract_col context_text : string)
    (size : nat) (starts : list nat) (results results' : result_map) (w w' : world) :
  map_Forall (fun _ v => decided v) results ->
  batch_loop rows title_col abstract_col context_text size starts results w
  = (Ok results', w') ->
  map_Forall (fun _ v => decided v) results'.
Proof.
  revert results w. induction starts as [|start rest IH]; intros results w Hwf; simpl.
  - by intros [= <- _].
  - unfold batch_body.
    destruct (call_model _ w) as [[raw|e] w1]; [|by intros [= <- _]].
    destruct (parse_reply raw) as [parsed|e]; [|done].
    destruct (reconcile parsed results) as [r1|e] eqn:Hrec; [|done].
    apply IH. by apply (reconcile_decided parsed results).
Qed.

Lemma get_filtered_data_decided (rows : list row) (title_col abstract_col context_text : string)
    (batch_size : pyarg) (results : result_map) (w w' : world) :
  get_filtered_data rows title_col abstract_col context_text batch_size w = (Ok results, w') ->
  map_Forall (fun _ v => decided v) results.
Proof.
  unfold get_filtered_data. destruct (py_range (length rows) batch_size); [|done].
  apply batch_loop_decided. apply map_Forall_empty.
Qed.

Lemma decided_test (v : row) (orig : row) :
  decided v ->
  test_is "INCLUDE" (v ∪ orig) = negb (test_is "EXCLUDE" (v ∪ orig)).
Proof.
  unfold test_is.
  intros [H|H]; by rewrite (lookup_union_Some_l _ _ _ _ H).
Qed.

Lemma out_rows_test (rows : list row) (results : result_map) (r : row) :
  map_Forall (fun _ v => decided v) results ->
  In r (out_rows rows results) ->
  test_is "INCLUDE" r = negb (test_is "EXCLUDE" r).
Proof.
  intros Hwf Hin. apply list_elem_of_In, list_elem_of_lookup in Hin as [i Hi].
  rewrite out_rows_lookup in Hi.
  destruct (rows !! i) as [orig|]; [|done]. simpl in Hi. injection Hi as <-.
  apply decided_test.
  destruct (results !! Z.of_nat i) as [v|] eqn:Hv; simpl.
  - by apply (Hwf (Z.of_nat i)).
  - by left.
Qed.

(** Two filters that split a list: the lengths add up, and the two parts
    are the list up to order. *)
Lemma filter_split_length {A : Type} (f g : A -> bool) (l : list A) :
  (forall x, In x l -> f x = negb (g x)) ->
  length (List.filter f l) + length (List.filter g l) = length l.
Proof.
  induction l as [|x l IH]; intros H; simpl; [done|].
  rewrite (H x) by (by left).
  destruct (g x); simpl; rewrite <- IH by (intros y Hy; apply H; by right); lia.
Qed.

Lemma filter_split_perm {A : Type} (f g : A -> bool) (l : list A) :
  (forall x, In x l -> f x = negb (g x)) ->
  List.filter f l ++ List.filter g l ≡ₚ l.
Proof.
  induction l as [|x l IH]; intros H; simpl; [done|].
  rewrite (H x) by (by left).
  assert (List.filter f l ++ List.filter g l ≡ₚ l) as IH'
    by (apply IH; intros y Hy; apply H; by right).
  destruct (g x); simpl.
  - rewrite <- Permutation_middle. by constructor.
  - by constructor.
Qed.

(** Verdicts at indices that match no row play no part in the merged rows. *)
Lemma out_rows_in_range (rows : list row) (results results2 : result_map) :
  (forall i, i < length rows -> results !! Z.of_nat i = results2 !! Z.of_nat i) ->
  out_rows rows results = out_rows rows results2.
Proof.
  intros Hagree. apply list_eq. intros i. rewrite !out_rows_lookup.
  destruct (rows !! i) as [orig|] eqn:Hi; [|done]. simpl.
  by rewrite Hagree by (by apply lookup_lt_Some with orig).
Qed.

(** On a table with at least one row the two files hold the merged rows,
    every row in exactly one file and in the order of the table, and the
    merged rows read the result map at the positions of the rows only: a
    verdict at any other index changes nothing. *)
Theorem finalization_covers_rows (df : dataset) (context_text : string) (batch_size : pyarg)
    (p : string) (w w' : world) (title_col abstract_col : string) (results : result_map) :
  find_column "title" (columns df) = Some title_col ->
  find_column "abstract" (columns df) = Some abstract_col ->
  get_filtered_data (records df) title_col abstract_col context_text batch_size w
  = (Ok results, w') ->
  records df <> [] ->
  exists rep,
    process df context_text batch_size (ArgPath p) w = (Ok rep, w') /\
    included_csv rep = included (out_rows (records df) results) /\
    excluded_csv rep = excluded (out_rows (records df) results) /\
    length (included_csv rep) + length (excluded_csv rep) = length (records df) /\
    included_csv rep ++ excluded_csv rep
      ≡ₚ List.map (delete "TEST") (out_rows (records df) results) /\
    (forall results2,
       (forall i, i < length (records df) ->
                  results !! Z.of_nat i = results2 !! Z.of_nat i) ->
       out_rows (records df) results = out_rows (records df) results2).
Proof.
  intros Htitle Habstract Hrun Hrows.
  pose proof (get_filtered_data_decided _ _ _ _ _ _ _ _ Hrun) as Hwf.
  pose proof (out_rows_test (records df) results) as Htest.
  unfold process. rewrite Htitle, Habstract, Hrun.
  destruct (out_rows (records df) results) as [|r out] eqn:Hout.
  { apply (f_equal length) in Hout. rewrite out_rows_length in Hout.
    by destruct (records df). }
  eexists. split; [reflexivity|]. cbn [included_csv excluded_csv].
  split; [done|]. split; [done|]. split; [|split].
  - unfold included, excluded. rewrite !length_map.
    rewrite filter_split_length by (intros x Hx; by apply Htest).
    by rewrite <- Hout, out_rows_length.
  - unfold included, excluded. rewrite <- map_app.
    apply Permutation_map, filter_split_perm. intros x Hx. by apply Htest.
  - intros results2 Hagree. rewrite <- Hout. by apply out_rows_in_range.
Qed.

(** ** More on the retry loop *)

Lemma backoff_rate_limited (error_str : string) (attempt : nat) (w : world) :
  rate_limited error_str = true -> backoff error_str attempt w = sleep 60 w.
Proof. unfold rate_limited, backoff. by intros ->. Qed.

Lemma backoff_unavailable (error_str : string) (attempt : nat) (w : world) :
  unavailable error_str = true -> backoff error_str attempt w = sleep (wait_time attempt) w.
Proof.
  unfold unavailable, rate_limited, backoff. intros H.
  apply andb_prop in H as [H1 H2]. apply negb_true_iff in H1.
  by rewrite H1, H2.
Qed.

Lemma calls_tick (w : world) : calls (tick w) = S (calls w).
Proof. reflexivity. Qed.

Ltac calls_norm := repeat first [rewrite calls_tick | rewrite backoff_calls].

(** [call_model] calls the oracle at least once and at most [MAX_RETRIES]
    times. It returns the text of the last call it made, or, when three
    calls in a row have failed, raises the error of the third; no run of
    the loop falls through to Python's implicit [None]. *)
Theorem call_model_attempts (p : prompt) (w : world) :
  calls w < calls (snd (call_model p w)) <= calls w + MAX_RETRIES /\
  ((exists text,
      fst (call_model p w) = Ok (Some text) /\
      generate_content (calls (snd (call_model p w)) - 1) p = Reply text) \/
   (exists e0 e1 e2,
      fst (call_model p w) = Raise (ModelError e2) /\
      calls (snd (call_model p w)) = calls w + MAX_RETRIES /\
      generate_content (calls w) p = Failure e0 /\
      generate_content (calls w + 1) p = Failure e1 /\
      generate_content (calls w + 2) p = Failure e2)).
Proof.
  unfold call_model. change (MAX_RETRIES - 0) with 3.
  cbn [call_model_loop]. unfold MAX_RETRIES. cbn [Nat.leb].
  replace (calls w + 1) with (S (calls w)) by lia.
  replace (calls w + 2) with (S (S (calls w))) by lia.
  destruct (generate_content (calls w) p) as [text|e0] eqn:H0.
  { cbn [fst snd]. calls_norm.
    replace (S (calls w) - 1) with (calls w) by lia.
    split; [lia|]. left. eauto. }
  cbn [Nat.leb]. calls_norm.
  destruct (generate_content (S (calls w)) p) as [text|e1] eqn:H1.
  { cbn [fst snd]. calls_norm.
    replace (S (S (calls w)) - 1) with (S (calls w)) by lia.
    split; [lia|]. left. eauto. }
  calls_norm.
  destruct (generate_content (S (S (calls w))) p) as [text|e2] eqn:H2.
  { cbn [fst snd]. calls_norm.
    replace (S (S (S (calls w))) - 1) with (S (S (calls w))) by lia.
    split; [lia|]. left. eauto. }
  cbn [fst snd]. calls_norm.
  split; [lia|]. right. exists e0, e1, e2. repeat split; try done. lia.
Qed.

Lemma call_model_step (p : prompt) (w : world) (e0 : string) :
  generate_content (calls w) p = Failure e0 ->
  call_model p w = call_model_loop 2 1 p (backoff e0 0 (tick w)).
Proof.
  intros H0. unfold call_model. change (MAX_RETRIES - 0) with 3.
  cbn [call_model_loop]. by rewrite H0.
Qed.

(** After a rate-limited failure [call_model] sleeps 60 seconds, whatever
    the attempt, and also after the third failure, just before it gives
    up: three such failures cost three cooldowns and raise the last error.
    The test for the rate-limit marker comes first, so an error text that
    also carries the marker of an unavailable service is cooled down the
    same way. *)
Theorem rate_limit_cooldown (p : prompt) (w : world) (e0 : string) :
  generate_content (calls w) p = Failure e0 ->
  rate_limited e0 = true ->
  (forall text,
     generate_content (S (calls w)) p = Reply text ->
     call_model p w
     = (Ok (Some text), {| calls := calls w + 2; slept := 60%Q :: slept w |})) /\
  (forall e1 e2,
     generate_content (S (calls w)) p = Failure e1 -> rate_limited e1 = true ->
     generate_content (S (S (calls w))) p = Failure e2 -> rate_limited e2 = true ->
     call_model p w
     = (Raise (ModelError e2),
        {| calls := calls w + 3; slept := 60%Q :: 60%Q :: 60%Q :: slept w |})).
Proof.
  intros H0 Hm0. rewrite (call_model_step p w e0 H0), backoff_rate_limited by done.
  split.
  - intros text H1. cbn [call_model_loop sleep tick calls slept]. rewrite H1.
    unfold tick. cbn. do 2 f_equal. lia.
  - intros e1 e2 H1 Hm1 H2 Hm2. cbn [call_model_loop sleep tick calls slept].
    rewrite H1, backoff_rate_limited by done.
    unfold MAX_RETRIES. cbn [Nat.leb sleep tick calls slept].
    rewrite H2, backoff_rate_limited by done.
    unfold sleep, tick. cbn. do 2 f_equal. lia.
Qed.

(** After a failure of an unavailable service [call_model] sleeps
    [2 * 2 ** (attempt - 1)] seconds: 1 second after the first failure (the
    exponent is -1 there), then 2, then 4, the last wait coming after the
    third failure, just before the error is raised. *)
Theorem unavailable_backoff (p : prompt) (w : world) (e0 : string) :
  generate_content (calls w) p = Failure e0 ->
  unavailable e0 = true ->
  (forall text,
     generate_content (S (calls w)) p = Reply text ->
     call_model p w
     = (Ok (Some text), {| calls := calls w + 2; slept := 1%Q :: slept w |})) /\
  (forall e1 e2,
     generate_content (S (calls w)) p = Failure e1 -> unavailable e1 = true ->
     generate_content (S (S (calls w))) p = Failure e2 -> unavailable e2 = true ->
     call_model p w
     = (Raise (ModelError e2),
        {| calls := calls w + 3; slept := 4%Q :: 2%Q :: 1%Q :: slept w |})).
Proof.
  intros H0 Hm0. rewrite (call_model_step p w e0 H0), backoff_unavailable by done.
  split.
  - intros text H1. cbn [call_model_loop sleep tick calls slept]. rewrite H1.
    unfold tick. cbn. do 2 f_equal. lia.
  - intros e1 e2 H1 Hm1 H2 Hm2. cbn [call_model_loop sleep tick calls slept].
    rewrite H1, backoff_unavailable by done.
    unfold MAX_RETRIES. cbn [Nat.leb sleep tick calls slept].
    rewrite H2, backoff_unavailable by done.
    unfold sleep, tick. cbn. do 2 f_equal. lia.
Qed.

(** ** More on reconciliation *)

(** Whether a list reconciles, and what it writes, does not depend on the
    map it is written to. *)
Lemma reconcile_transfer (entries : list pyval) (results r1 results0 : result_map) :
  reconcile entries results = Ok r1 ->
  exists r0,
    reconcile entries results0 = Ok r0 /\
    (forall k, k ∈ entry_indices entries -> r0 !! k = r1 !! k) /\
    (forall k, k ∉ entry_indices entries -> r0 !! k = results0 !! k).
Proof.
  revert results results0. induction entries as [|entry rest IH]; intros results results0; simpl.
  - intros _. exists results0. split; [done|]. split; [|done].
    intros k Hk. by apply elem_of_nil in Hk.
  - destruct (reconcile_entry results entry) as [r|e] eqn:H1; [|done].
    destruct (reconcile_entry_insert _ _ _ H1) as (idx & v & Hidx & Hins).
    rewrite Hins in H1. injection H1 as <-. rewrite Hins.
    intros Hrest.
    destruct (IH _ (<[idx := v]> results0) Hrest) as (r0 & Hr0 & Hin & Hout).
    exists r0. split; [done|].
    unfold entry_indices. simpl. rewrite Hidx. fold (entry_indices rest).
    split.
    + intros k Hk. destruct (decide (k ∈ entry_indices rest)) as [Hk'|Hk']; [by apply Hin|].
      apply elem_of_cons in Hk as [->|Hk]; [|done].
      rewrite (Hout _ Hk'), (reconcile_untouched _ _ _ _ Hrest Hk').
      by rewrite !lookup_insert_eq.
    + intros k Hk. apply not_elem_of_cons in Hk as [Hne Hk].
      rewrite (Hout _ Hk). by apply lookup_insert_ne.
Qed.

(** Reconciling a parsed list a second time changes nothing: the map after
    one pass is a fixed point of the pass. *)
Theorem reconcile_idempotent (entries : list pyval) (results r1 : result_map) :
  reconcile entries results = Ok r1 ->
  reconcile entries r1 = Ok r1.
Proof.
  intros H. destruct (reconcile_transfer entries results r1 r1 H) as (r0 & Hr0 & Hin & Hout).
  rewrite Hr0. f_equal. apply map_eq. intros k.
  destruct (decide (k ∈ entry_indices entries)); auto.
Qed.

(** A property of the stored verdicts that every write keeps holds of the
    map [get_filtered_data] returns. *)
Lemma reconcile_invariant (P : row -> Prop) (entries : list pyval)
    (results results' : result_map) :
  (forall results entry results',
     map_Forall (fun _ v => P v) results ->
     reconcile_entry results entry = Ok results' ->
     map_Forall (fun _ v => P v) results') ->
  map_Forall (fun _ v => P v) results ->
  reconcile entries results = Ok results' ->
  map_Forall (fun _ v => P v) results'.
Proof.
  intros Hstep. revert results. induction entries as [|entry rest IH]; intros results Hwf; simpl.
  - by intros [= <-].
  - destruct (reconcile_entry results entry) as [r1|e] eqn:H1; [|done].
    apply IH. by apply (Hstep results entry).
Qed.

Lemma get_filtered_data_invariant (P : row -> Prop) (rows : list row)
    (title_col abstract_col context_text : string) (batch_size : pyarg)
    (results : result_map) (w w' : world) :
  (forall results entry results',
     map_Forall (fun _ v => P v) results ->
     reconcile_entry results entry = Ok results' ->
     map_Forall (fun _ v => P v) results') ->
  get_filtered_data rows title_col abstract_col context_text batch_size w = (Ok results, w') ->
  map_Forall (fun _ v => P v) results.
Proof.
  intros Hstep. unfold get_filtered_data.
  destruct (py_range (length rows) batch_size) as [starts|]; [|done].
  assert (map_Forall (fun _ v => P v) (∅ : result_map)) as Hwf by apply map_Forall_empty.
  revert Hwf. generalize (∅ : result_map) as results0. revert w.
  induction starts as [|start rest IH]; intros w0 results0 Hwf; simpl.
  - by intros [= <- _].
  - unfold batch_body.
    destruct (call_model _ w0) as [[raw|e] w1]; [|by intros [= <- _]].
    destruct (parse_reply raw) as [parsed|e]; [|done].
    destruct (reconcile parsed results0) as [r1|e] eqn:Hrec; [|done].
    apply IH. by apply (reconcile_invariant P parsed results0).
Qed.

Lemma reconcile_entry_gated (results : result_map) (entry : pyval) (results' : result_map) :
  map_Forall (fun _ v => gated v) results ->
  reconcile_entry results entry = Ok results' ->
  map_Forall (fun _ v => gated v) results'.
Proof.
  intros Hwf. unfold reconcile_entry.
  destruct (entry_index entry) as [idx|e]; simpl; [|done].
  destruct (py_get entry "TEST" (PStr "")) as [t|e]; simpl; [|done].
  destruct (String.eqb_spec (upper (py_str t)) "INCLUDE") as [Heq|Hne].
  - rewrite Heq. simpl. intros [= <-]. apply map_Forall_insert_2; [|done]. by left.
  - destruct (if String.eqb (upper (py_str t)) "EXCLUDE"
              then py_get entry "REASON" (PStr "") else Ok (PStr "")) as [reason|e];
      simpl; [|done].
    intros [= <-]. apply map_Forall_insert_2; [|done]. right. by exists reason.
Qed.

Lemma get_filtered_data_gated (rows : list row)
    (title_col abstract_col context_text : string) (batch_size : pyarg)
    (results : result_map) (w w' : world) :
  get_filtered_data rows title_col abstract_col context_text batch_size w = (Ok results, w') ->
  map_Forall (fun _ v => gated v) results.
Proof. apply get_filtered_data_invariant. exact reconcile_entry_gated. Qed.

(** A text [call_model] returns is the reply to one of its calls. *)
Lemma call_model_loop_reply (remaining attempt : nat) (p : prompt) (w w' : world)
    (text : string) :
  call_model_loop remaining attempt p w = (Ok (Some text), w') ->
  exists n, calls w <= n < calls w' /\ generate_content n p = Reply text.
Proof.
  revert attempt w. induction remaining as [|remaining IH]; intros attempt w; [done|].
  cbn [call_model_loop].
  destruct (generate_content (calls w) p) as [text0|error_str] eqn:Hcall.
  - intros [= <- <-]. exists (calls w). rewrite calls_tick. split; [lia|done].
  - destruct (MAX_RETRIES <=? S attempt); [done|].
    intros Hloop. destruct (IH _ _ Hloop) as (n & Hn & Hreply).
    rewrite backoff_calls, calls_tick in Hn. exists n. split; [lia|done].
Qed.

(** What an entry writes: only a dict writes, at the index it names, the
    verdict of lines 121-123. *)
Lemma reconcile_entry_writes (results results' : result_map) (entry : pyval) :
  reconcile_entry results entry = Ok results' ->
  exists d idx,
    entry = PDict d /\ entry_index entry = Ok idx /\
    results' = <[idx := entry_verdict d]> results.
Proof.
  unfold reconcile_entry.
  destruct (entry_index entry) as [idx|e] eqn:Hidx; cbn [bind]; [|done].
  destruct entry as [| | | | | |d]; try done.
  cbn [py_get bind]. unfold entry_verdict.
  change (match items_get d "TEST" with Some v => v | None => PStr "" end)
    with (default (PStr "") (items_get d "TEST")).
  destruct (String.eqb_spec (upper (py_str (default (PStr "") (items_get d "TEST"))))
              "INCLUDE") as [Heq|Hne].
  - rewrite Heq. cbn [String.eqb Ascii.eqb Bool.eqb bind].
    intros [= <-]. exists d, idx. by rewrite Heq.
  - apply String.eqb_neq in Hne.
    destruct (String.eqb (upper (py_str (default (PStr "") (items_get d "TEST")))) "EXCLUDE")
      eqn:Hex;
      cbn [py_get bind]; intros [= <-]; exists d, idx; rewrite Hne, Hex;
      (split; [done|split; [done|]]); [|done].
    by destruct (items_get d "REASON").
Qed.

Lemma reconcile_writes (entries : list pyval) (results results' : result_map) :
  reconcile entries results = Ok results' ->
  forall idx v, results' !! idx = Some v ->
    results !! idx = Some v \/
    exists d, In (PDict d) entries /\ entry_index (PDict d) = Ok idx /\ v = entry_verdict d.
Proof.
  revert results. induction entries as [|entry rest IH]; intros results; simpl.
  - intros [= <-]. auto.
  - destruct (reconcile_entry results entry) as [r1|e] eqn:H1; [|done].
    destruct (reconcile_entry_writes _ _ _ H1) as (d & idx0 & -> & Hidx & ->).
    intros Hrest idx v Hv.
    destruct (IH _ Hrest idx v Hv) as [Hold|(d' & Hin & Hidx' & ->)].
    + apply lookup_insert_Some in Hold as [[<- <-]|[_ Hold]]; [|by left].
      right. exists d. auto.
    + right. exists d'. auto.
Qed.

Lemma from_reply_mono (rows : list row) (title_col abstract_col context_text : string)
    (size lo hi lo' hi' : nat) (idx : Z) (v : row) :
  lo' <= lo -> hi <= hi' ->
  from_reply rows title_col abstract_col context_text size lo hi idx v ->
  from_reply rows title_col abstract_col context_text size lo' hi' idx v.
Proof.
  intros Hlo Hhi (n & start & text & entries & d & Hn & Hrest).
  exists n, start, text, entries, d. split; [lia|done].
Qed.

(** Every verdict the loop adds stems from a reply of the run. *)
Lemma batch_loop_from_reply (rows : list row) (title_col abstract_col context_text : string)
    (size : nat) (starts : list nat) (results results' : result_map) (w w' : world) :
  batch_loop rows title_col abstract_col context_text size starts results w
  = (Ok results', w') ->
  calls w <= calls w' /\
  forall idx v, results' !! idx = Some v ->
    results !! idx = Some v \/
    from_reply rows title_col abstract_col context_text size (calls w) (calls w') idx v.
Proof.
  revert results w. induction starts as [|start rest IH]; intros results w; simpl.
  - intros [= <- <-]. auto.
  - unfold batch_body.
    assert (calls w
            < calls (snd (call_model
                            (build_prompt context_text
                               (batch_items rows title_col abstract_col size start)) w)))
      as Hcalls by (apply call_model_loop_calls; unfold MAX_RETRIES; lia).
    destruct (call_model _ w) as [[raw|e] w1] eqn:Hcall; cbn [snd] in Hcalls.
    2:{ intros [= <- <-]. split; [lia|auto]. }
    destruct (parse_reply raw) as [parsed|e] eqn:Hparse; [|done].
    destruct (reconcile parsed results) as [r1|e] eqn:Hrec; [|done].
    intros Hloop. destruct (IH _ _ Hloop) as [Hle Hsrc]. split; [lia|].
    intros idx v Hv. destruct (Hsrc idx v Hv) as [Hold|Hnew].
    + destruct (reconcile_writes _ _ _ Hrec idx v Hold) as [?|(d & Hin & Hidx & ->)]; [by left|].
      right. destruct raw as [text|]; [|done].
      destruct (call_model_loop_reply _ _ _ _ _ _ Hcall) as (n & Hn & Hreply).
      exists n, start, text, parsed, d. split; [lia|done].
    + right. apply (from_reply_mono _ _ _ _ _ (calls w1) (calls w')); [lia|lia|done].
Qed.

(** Reason gating. Every verdict in the map [get_filtered_data] returns
    stems from a reply of the run: the oracle gave, at one of the calls of
    the run, a text to the request of a batch, the text parsed to a list,
    and the verdict is what lines 121-123 store for an entry of the list
    that names the index: INCLUDE with the empty reason when the
    upper-cased [TEST] of the entry is INCLUDE, EXCLUDE with the [REASON]
    of the entry (the empty string when it has none) when it is EXCLUDE,
    EXCLUDE with the empty reason for any other value. So an INCLUDE
    verdict never carries a reason of the model, and the reason of an
    EXCLUDE verdict is the one the entry gave. *)
Theorem verdicts_reason_gated (rows : list row)
    (title_col abstract_col context_text : string) (batch_size : pyarg)
    (results : result_map) (w w' : world) :
  get_filtered_data rows title_col abstract_col context_text batch_size w = (Ok results, w') ->
  forall idx v, results !! idx = Some v ->
    exists B n start text entries d,
      batch_size = ArgInt B /\
      calls w <= n < calls w' /\
      generate_content n
        (build_prompt context_text
           (batch_items rows title_col abstract_col (Z.to_nat B) start))
      = Reply text /\
      parse_reply (Some text) = Ok entries /\
      In (PDict d) entries /\
      entry_index (PDict d) = Ok idx /\
      v = (if String.eqb (upper (py_str (default (PStr "") (items_get d "TEST")))) "INCLUDE"
           then verdict "INCLUDE" (PStr "")
           else verdict "EXCLUDE"
                  (if String.eqb (upper (py_str (default (PStr "") (items_get d "TEST"))))
                                 "EXCLUDE"
                   then default (PStr "") (items_get d "REASON")
                   else PStr "")).
Proof.
  unfold get_filtered_data. intros Hrun idx v Hv.
  destruct batch_size as [|s|B|p]; try done.
  destruct (py_range (length rows) (ArgInt B)) as [starts|e]; [|done].
  destruct (batch_loop_from_reply _ _ _ _ _ _ _ _ _ _ Hrun) as [_ Hsrc].
  destruct (Hsrc idx v Hv) as [Hold|(n & start & text & entries & d & Hsrced)];
    [by rewrite lookup_empty in Hold|].
  exists B, n, start, text, entries, d. split; [done|]. exact Hsrced.
Qed.

(** ** Column detection *)

Lemma startswith_refl (s : string) : startswith s s = true.
Proof. induction s as [|a s IH]; simpl; [done|]. by rewrite Ascii.eqb_refl. Qed.

Lemma contains_refl (s : string) : contains s s = true.
Proof. destruct s; simpl; [done|]. by rewrite Ascii.eqb_refl, startswith_refl. Qed.

Lemma find_column_test (key c : string) :
  String.eqb (lower (strip c)) key || contains key (lower (strip c))
  = contains key (lower (strip c)).
Proof.
  destruct (String.eqb_spec (lower (strip c)) key) as [<-|_]; [|done].
  by rewrite contains_refl.
Qed.

(** The column [process] screens on is the first one whose name, stripped
    and lower-cased, contains the key: a name that is exactly the key is
    not preferred to an earlier name that merely contains it. *)
Theorem find_column_first_containing (key : string) (cols : list string) (c : string) :
  find_column key cols = Some c <->
  exists pre post,
    cols = pre ++ c :: post /\
    contains key (lower (strip c)) = true /\
    Forall (fun c' => contains key (lower (strip c')) = false) pre.
Proof.
  unfold find_column. induction cols as [|c0 cols IH]; simpl.
  - split; [done|]. intros (pre & post & H & _). by destruct pre.
  - rewrite find_column_test.
    destruct (contains key (lower (strip c0))) eqn:Hc0.
    + split.
      * intros [= <-]. exists [], cols. by repeat split.
      * intros (pre & post & Hcols & Hc & Hpre).
        destruct pre as [|c1 pre]; simpl in Hcols.
        -- by injection Hcols as ->.
        -- injection Hcols as <- _. apply Forall_cons in Hpre as [Hc1 _]. congruence.
    + rewrite IH. split.
      * intros (pre & post & -> & Hc & Hpre). exists (c0 :: pre), post.
        split; [done|]. split; [done|]. by constructor.
      * intros (pre & post & Hcols & Hc & Hpre).
        destruct pre as [|c1 pre]; simpl in Hcols.
        -- injection Hcols as -> _. congruence.
        -- injection Hcols as <- ->. apply Forall_cons in Hpre as [_ Hpre].
           by exists pre, post.
Qed.

(** ** How often the oracle is called *)

Lemma call_model_loop_calls_le (remaining attempt : nat) (p : prompt) (w : world) :
  calls (snd (call_model_loop remaining attempt p w)) <= calls w + remaining.
Proof.
  revert attempt w. induction remaining as [|remaining IH]; intros attempt w.
  - cbn. lia.
  - cbn [call_model_loop].
    destruct (generate_content (calls w) p) as [text|error_str]; [cbn; lia|].
    destruct (MAX_RETRIES <=? S attempt).
    + cbn [snd]. rewrite backoff_calls, calls_tick. lia.
    + specialize (IH (S attempt) (backoff error_str attempt (tick w))).
      rewrite backoff_calls, calls_tick in IH. lia.
Qed.

Lemma call_model_calls (p : prompt) (w : world) :
  calls w < calls (snd (call_model p w)) <= calls w + MAX_RETRIES.
Proof.
  unfold call_model. split.
  - apply call_model_loop_calls. unfold MAX_RETRIES. lia.
  - etransitivity; [apply call_model_loop_calls_le|]. lia.
Qed.

Lemma batch_body_calls (rows : list row) (title_col abstract_col context_text : string)
    (size start : nat) (results : result_map) (w : world) :
  calls w
  < calls (snd (batch_body rows title_col abstract_col context_text size start results w))
  <= calls w + MAX_RETRIES.
Proof.
  unfold batch_body.
  match goal with |- context [call_model ?p w] =>
    pose proof (call_model_calls p w) as Hcalls;
    destruct (call_model p w) as [[raw|e] w1]
  end; cbn [snd] in *; [|done].
  destruct (parse_reply raw) as [parsed|e]; [|done].
  by destruct (reconcile parsed results).
Qed.

Lemma batch_loop_calls (rows : list row) (title_col abstract_col context_text : string)
    (size : nat) (starts : list nat) (results : result_map) (w : world) :
  calls w
  <= calls (snd (batch_loop rows title_col abstract_col context_text size starts results w))
  <= calls w + MAX_RETRIES * length starts.
Proof.
  revert results w. induction starts as [|start rest IH]; intros results w.
  - cbn. lia.
  - cbn [batch_loop length].
    pose proof (batch_body_calls rows title_col abstract_col context_text size start results w)
      as Hbody.
    destruct (batch_body _ _ _ _ _ start results w) as [[r|r|e] w1]; cbn [snd] in *.
    + specialize (IH r w1). lia.
    + lia.
    + lia.
Qed.

(** A run never calls the oracle more than [MAX_RETRIES] times per batch:
    for a table of [L] rows and a batch size [B > 0], at most
    [3 * ceil(L/B)] calls are made, whatever the oracle answers and also
    when the run ends in an exception. *)
Theorem oracle_calls_bounded (rows : list row) (title_col abstract_col context_text : string)
    (B : nat) (w : world) :
  0 < B ->
  calls w
  <= calls (snd (get_filtered_data rows title_col abstract_col context_text
                   (ArgInt (Z.of_nat B)) w))
  <= calls w + MAX_RETRIES * ((length rows + B - 1) / B).
Proof.
  intros HB. unfold get_filtered_data, py_range.
  destruct (Z.eqb_spec (Z.of_nat B) 0); [lia|].
  destruct (Z.ltb_spec (Z.of_nat B) 0); [lia|].
  rewrite Nat2Z.id.
  pose proof (batch_loop_calls rows title_col abstract_col context_text B
                (range_from (length rows) 0 (length rows) B) ∅ w) as Hloop.
  rewrite range_from_length in Hloop by lia.
  replace (length rows - 0 + B - 1) with (length rows + B - 1) in Hloop by lia.
  exact Hloop.
Qed.

(** ** What the two files hold *)

Lemma process_report (df : dataset) (context_text : string) (batch_size : pyarg) (p : string)
    (w w' : world) (title_col abstract_col : string) (results : result_map) :
  find_column "title" (columns df) = Some title_col ->
  find_column "abstract" (columns df) = Some abstract_col ->
  get_filtered_data (records df) title_col abstract_col context_text batch_size w
  = (Ok results, w') ->
  records df <> [] ->
  process df context_text batch_size (ArgPath p) w
  = (Ok {| out_dir_path := p;
           included_csv := included (out_rows (records df) results);
           excluded_csv := excluded (out_rows (records df) results) |}, w').
Proof.
  intros Htitle Habstract Hrun Hrows.
  unfold process. rewrite Htitle, Habstract, Hrun.
  destruct (out_rows (records df) results) as [|r out] eqn:Hout; [|done].
  apply (f_equal length) in Hout. rewrite out_rows_length in Hout.
  by destruct (records df).
Qed.

Lemma process_report_inv (df : dataset) (context_text : string) (batch_size : pyarg)
    (out_dir : pyarg) (w w' w'' : world) (title_col abstract_col : string)
    (results : result_map) (rep : report) :
  find_column "title" (columns df) = Some title_col ->
  find_column "abstract" (columns df) = Some abstract_col ->
  get_filtered_data (records df) title_col abstract_col context_text batch_size w
  = (Ok results, w') ->
  process df context_text batch_size out_dir w = (Ok rep, w'') ->
  included_csv rep = included (out_rows (records df) results) /\
  excluded_csv rep = excluded (out_rows (records df) results).
Proof.
  intros Htitle Habstract Hrun. unfold process. rewrite Htitle, Habstract, Hrun.
  destruct (out_rows (records df) results) as [|r out]; [done|].
  destruct out_dir; try done. by intros [= <- _].
Qed.

Lemma gated_fields (v : row) (col : string) :
  gated v \/ v = default_verdict ->
  col <> "TEST" -> col <> "REASON" -> v !! col = None.
Proof.
  unfold gated, verdict, default_verdict.
  intros [[->|[reason ->]]| ->] H1 H2;
    rewrite ?lookup_insert_ne, ?lookup_singleton_ne by done; apply lookup_empty || done.
Qed.

Lemma excluded_In (out : list row) (r : row) :
  In r (excluded out) <-> exists m, In m out /\ test_is "EXCLUDE" m = true /\ r = delete "TEST" m.
Proof.
  unfold excluded. rewrite in_map_iff. split.
  - intros (m & <- & Hm). apply filter_In in Hm as [Hin Htest]. by exists m.
  - intros (m & Hin & Htest & ->). exists m. split; [done|]. by apply filter_In.
Qed.

(** No record is excluded unless the model said so: every row of
    [excluded.csv] is the row of a record whose index holds an EXCLUDE
    verdict in the result map, and it carries the reason of that verdict
    and no decision column. *)
Theorem excluded_only_by_verdict (df : dataset) (context_text : string)
    (batch_size out_dir : pyarg) (w w' w'' : world) (title_col abstract_col : string)
    (results : result_map) (rep : report) :
  find_column "title" (columns df) = Some title_col ->
  find_column "abstract" (columns df) = Some abstract_col ->
  get_filtered_data (records df) title_col abstract_col context_text batch_size w
  = (Ok results, w') ->
  process df context_text batch_size out_dir w = (Ok rep, w'') ->
  forall r, In r (excluded_csv rep) ->
    exists i orig reason,
      records df !! i = Some orig /\
      results !! Z.of_nat i = Some (verdict "EXCLUDE" reason) /\
      r = delete "TEST" (verdict "EXCLUDE" reason ∪ orig) /\
      r !! "REASON" = Some reason /\
      r !! "TEST" = None.
Proof.
  intros Htitle Habstract Hrun Hproc r Hr.
  pose proof (get_filtered_data_gated _ _ _ _ _ _ _ _ Hrun) as Hgated.
  destruct (process_report_inv _ _ _ _ _ _ _ _ _ _ _ Htitle Habstract Hrun Hproc) as [_ Hex].
  rewrite Hex in Hr. apply excluded_In in Hr as (m & Hin & Htest & ->).
  apply list_elem_of_In, list_elem_of_lookup in Hin as [i Hi].
  rewrite out_rows_lookup in Hi.
  destruct (records df !! i) as [orig|] eqn:Horig; [|done]. simpl in Hi. injection Hi as <-.
  destruct (results !! Z.of_nat i) as [v|] eqn:Hv; simpl in *.
  - destruct (Hgated _ _ Hv) as [->|[reason ->]].
    + unfold test_is, verdict in Htest.
      rewrite (lookup_union_Some_l _ _ _ (PStr "INCLUDE")) in Htest
        by apply lookup_insert_eq.
      done.
    + exists i, orig, reason. split; [done|]. split; [done|]. split; [done|].
      split; [|apply lookup_delete_eq].
      rewrite lookup_delete_ne by done.
      apply lookup_union_Some_l. unfold verdict.
      rewrite lookup_insert_ne by done. apply lookup_insert_eq.
  - unfold test_is, default_verdict in Htest.
    rewrite (lookup_union_Some_l _ _ _ (PStr "INCLUDE")) in Htest
      by apply lookup_singleton_eq.
    done.
Qed.

(** The columns of the table pass through: the row written for a record
    has no decision column, holds in every column other than TEST and
    REASON what the record holds, and holds in REASON the reason of the
    record's verdict, which replaces a REASON column of the table; without
    a verdict the REASON of the record, if any, stays. *)
Theorem written_rows_keep_columns (df : dataset) (context_text : string)
    (batch_size out_dir : pyarg) (w w' w'' : world) (title_col abstract_col : string)
    (results : result_map) (rep : report) (i : nat) (orig : row) :
  find_column "title" (columns df) = Some title_col ->
  find_column "abstract" (columns df) = Some abstract_col ->
  get_filtered_data (records df) title_col abstract_col context_text batch_size w
  = (Ok results, w') ->
  process df context_text batch_size out_dir w = (Ok rep, w'') ->
  records df !! i = Some orig ->
  exists r,
    (In r (included_csv rep) \/ In r (excluded_csv rep)) /\
    r !! "TEST" = None /\
    (forall col, col <> "TEST" -> col <> "REASON" -> r !! col = orig !! col) /\
    r !! "REASON" = match results !! Z.of_nat i with
                    | Some v => v !! "REASON"
                    | None => orig !! "REASON"
                    end.
Proof.
  intros Htitle Habstract Hrun Hproc Horig.
  pose proof (get_filtered_data_gated _ _ _ _ _ _ _ _ Hrun) as Hgated.
  pose proof (get_filtered_data_decided _ _ _ _ _ _ _ _ Hrun) as Hdecided.
  destruct (process_report_inv _ _ _ _ _ _ _ _ _ _ _ Htitle Habstract Hrun Hproc)
    as [Hin Hex].
  set (v := default default_verdict (results !! Z.of_nat i)).
  assert (In (v ∪ orig) (out_rows (records df) results)) as Hm.
  { apply list_elem_of_In, list_elem_of_lookup. exists i.
    by rewrite out_rows_lookup, Horig. }
  assert (gated v \/ v = default_verdict) as Hv.
  { unfold v. destruct (results !! Z.of_nat i) as [v0|] eqn:Hv0; simpl; [left|by right].
    by apply (Hgated (Z.of_nat i)). }
  exists (delete "TEST" (v ∪ orig)). split; [|split; [|split]].
  - rewrite Hin, Hex.
    pose proof (out_rows_test _ _ _ Hdecided Hm) as Htest.
    destruct (test_is "EXCLUDE" (v ∪ orig)) eqn:Hexc.
    + right. apply excluded_In. by exists (v ∪ orig).
    + left. by apply included_In.
  - apply lookup_delete_eq.
  - intros col H1 H2. rewrite lookup_delete_ne by done.
    rewrite lookup_union_r; [done|]. by apply gated_fields.
  - rewrite lookup_delete_ne by done. unfold v.
    destruct (results !! Z.of_nat i) as [v0|] eqn:Hv0; simpl.
    + destruct (Hgated _ _ Hv0) as [->|[reason ->]]; apply lookup_union_Some_l;
        unfold verdict; rewrite lookup_insert_ne by done; apply lookup_insert_eq.
    + apply lookup_union_r. by apply lookup_singleton_ne.
Qed.

(** ** Batch sizes that are not positive *)

Lemma included_default (rows : list row) :
  included (List.map (fun orig => <["TEST" := PStr "INCLUDE"]> orig) rows)
  = List.map (delete "TEST") rows.
Proof.
  unfold included. induction rows as [|orig rows IH]; simpl; [done|].
  unfold test_is at 1. rewrite lookup_insert_eq. simpl.
  by rewrite delete_insert_eq, IH.
Qed.

Lemma excluded_default (rows : list row) :
  excluded (List.map (fun orig => <["TEST" := PStr "INCLUDE"]> orig) rows) = [].
Proof.
  unfold excluded. induction rows as [|orig rows IH]; simpl; [done|].
  unfold test_is at 1. rewrite lookup_insert_eq. simpl. exact IH.
Qed.

Lemma out_rows_no_results (rows : list row) :
  out_rows rows ∅ = List.map (fun orig => <["TEST" := PStr "INCLUDE"]> orig) rows.
Proof.
  apply list_eq. intros i. rewrite out_rows_lookup, lookup_empty. simpl.
  change (List.map ?f rows) with (f <$> rows). rewrite list_lookup_fmap.
  destruct (rows !! i); simpl; [|done]. by rewrite default_verdict_union.
Qed.

(** A negative batch size screens nothing: [range] is empty, the oracle is
    never called, and every record is written to [included.csv]. A batch
    size of zero makes [range] raise, and nothing is written. *)
Theorem nonpositive_batch_size (df : dataset) (context_text p : string) (w : world)
    (title_col abstract_col : string) :
  find_column "title" (columns df) = Some title_col ->
  find_column "abstract" (columns df) = Some abstract_col ->
  records df <> [] ->
  (forall z, (z < 0)%Z ->
     process df context_text (ArgInt z) (ArgPath p) w
     = (Ok {| out_dir_path := p;
              included_csv := List.map (delete "TEST") (records df);
              excluded_csv := [] |}, w)) /\
  process df context_text (ArgInt 0) (ArgPath p) w
  = (Raise (ValueError "range() arg 3 must not be zero"), w).
Proof.
  intros Htitle Habstract Hrows. split.
  - intros z Hz.
    assert (get_filtered_data (records df) title_col abstract_col context_text (ArgInt z) w
            = (Ok ∅, w)) as Hrun.
    { unfold get_filtered_data, py_range.
      destruct (Z.eqb_spec z 0); [lia|]. destruct (Z.ltb_spec z 0); [done|lia]. }
    rewrite (process_report _ _ _ _ _ _ _ _ _ Htitle Habstract Hrun Hrows).
    by rewrite out_rows_no_results, included_default, excluded_default.
  - unfold process. by rewrite Htitle, Habstract.
Qed.

(** ** A model call that fails for good *)

Lemma run_reaches_rows (rows : list row) (title_col abstract_col context_text : string)
    (B : Z) (w : world) (start : nat) (results : result_map) (w1 : world) :
  run_reaches rows title_col abstract_col context_text B w start results w1 -> rows <> [].
Proof.
  intros (done & rest & Hrange & _) ->. unfold py_range in Hrange. simpl in Hrange.
  destruct (B =? 0)%Z; [done|]. destruct (B <? 0)%Z; injection Hrange as Hrange;
    by destruct done.
Qed.

(** When the model call of a batch fails for good, the run stops there but
    still reports: no later batch is sent, the verdicts of the batches
    before it are kept, and the two files are written from them, every
    record without a verdict falling to the default. *)
Theorem model_failure_finalizes (df : dataset) (title_col abstract_col context_text : string)
    (B : Z) (p : string) (w : world) (start : nat) (results : result_map) (w1 w2 : world)
    (e : exn) :
  find_column "title" (columns df) = Some title_col ->
  find_column "abstract" (columns df) = Some abstract_col ->
  run_reaches (records df) title_col abstract_col context_text B w start results w1 ->
  call_model (build_prompt context_text
                (batch_items (records df) title_col abstract_col (Z.to_nat B) start)) w1
  = (Raise e, w2) ->
  get_filtered_data (records df) title_col abstract_col context_text (ArgInt B) w
  = (Ok results, w2) /\
  process df context_text (ArgInt B) (ArgPath p) w
  = (Ok {| out_dir_path := p;
           included_csv := included (out_rows (records df) results);
           excluded_csv := excluded (out_rows (records df) results) |}, w2).
Proof.
  intros Htitle Habstract Hreach Hcall.
  assert (get_filtered_data (records df) title_col abstract_col context_text (ArgInt B) w
          = (Ok results, w2)) as Hrun.
  { destruct Hreach as (done & rest & Hrange & Hdone).
    unfold get_filtered_data. rewrite Hrange.
    rewrite (batch_loop_done df title_col abstract_col context_text B _ _ _ _ _ _ Hdone).
    simpl. unfold batch_body. by rewrite Hcall. }
  split; [done|].
  apply (process_report _ _ _ _ _ _ _ _ _ Htitle Habstract Hrun).
  by apply (run_reaches_rows _ _ _ _ _ _ _ _ _ Hreach).
Qed.

(** ** The brace fallback *)

(** A reply without a bracket pair never parses. [json.loads] turns a text
    that starts with a brace into a dict or raises, so the snippet the
    brace search finds is never a list: the fallback of
    [extract_json_array] only changes which exception ends the run. *)
Theorem brace_fallback_never_parses (text : string) :
  (forall s v, json_loads (String "{" s) = Some v -> exists d, v = PDict d) ->
  (forall pre mid post, text <> pre +:+ String "[" (mid +:+ String "]" post)) ->
  parse_reply (Some text) = Raise (ValueError "No JSON array/object found in model response.")
  \/ parse_reply (Some text) = Raise JSONDecodeError
  \/ parse_reply (Some text) = Raise (ValueError "Model returned JSON that is not a list.").
Proof.
  intros Hobj Hno. unfold parse_reply, extract_json_array.
  rewrite (re_search_none "[" "]" text Hno).
  destruct (re_search "{" "}" text) as [snippet|] eqn:Hbrace; [|by left].
  destruct (re_search_some _ _ _ _ Hbrace) as (pre & mid & post & _ & -> & _).
  destruct (json_loads (String "{" (mid +:+ String "}" EmptyString))) as [v|] eqn:Hv.
  - destruct (Hobj _ _ Hv) as [d ->]. right. by right.
  - right. by left.
Qed.

(** ** clean_data.py: guessing a column *)

Lemma lowered_set_In (low orig : string) (d : list (string * string)) (k v : string) :
  In (k, v) (lowered_set low orig d) -> (k = low /\ v = orig) \/ In (k, v) d.
Proof.
  induction d as [|[k0 v0] d IH]; simpl.
  - intros [[= <- <-]|[]]. by left.
  - destruct (String.eqb_spec k0 low) as [->|Hne]; simpl.
    + intros [[= <- <-]|H]; [by left|]. right. by right.
    + intros [H|H]; [right; by left|].
      destruct (IH H) as [?|?]; [by left|]. right. by right.
Qed.

Lemma lowered_set_key (low orig : string) (d : list (string * string)) :
  exists v, In (low, v) (lowered_set low orig d).
Proof.
  induction d as [|[k0 v0] d IH]; simpl.
  - exists orig. by left.
  - destruct (String.eqb_spec k0 low) as [->|Hne]; simpl.
    + exists orig. by left.
    + destruct IH as [v Hv]. exists v. by right.
Qed.

Lemma lowered_set_keeps_keys (low orig : string) (d : list (string * string)) (k v : string) :
  In (k, v) d -> exists v', In (k, v') (lowered_set low orig d).
Proof.
  induction d as [|[k0 v0] d IH]; simpl; [done|].
  intros [[= -> ->]|H].
  - destruct (String.eqb_spec k low) as [->|Hne]; eexists; by left.
  - destruct (IH H) as [v' Hv']. destruct (String.eqb k0 low); simpl.
    + exists v. by right.
    + exists v'. by right.
Qed.

(** The items of [lowered]: every value is a column under its normalized
    name, and every column has its normalized name among the keys. *)
Lemma lowered_spec (df_cols : list string) :
  (forall low orig, In (low, orig) (lowered df_cols) ->
     In orig df_cols /\ low = strip (lower orig)) /\
  (forall c, In c df_cols -> exists orig, In (strip (lower c), orig) (lowered df_cols)).
Proof.
  unfold lowered.
  assert (forall cols d,
    (forall low orig, In (low, orig) (fold_left (fun d c => lowered_set (strip (lower c)) c d) cols d) ->
       (In orig cols /\ low = strip (lower orig)) \/ In (low, orig) d) /\
    (forall k, (exists c, In c cols /\ k = strip (lower c)) \/ (exists v, In (k, v) d) ->
       exists orig, In (k, orig) (fold_left (fun d c => lowered_set (strip (lower c)) c d) cols d)))
    as Hgen.
  { induction cols as [|c cols IH]; intros d; simpl.
    - split; [by right|]. intros k [(c & [] & _)|H]. done.
    - destruct (IH (lowered_set (strip (lower c)) c d)) as [IH1 IH2]. split.
      + intros low orig H. destruct (IH1 _ _ H) as [[Hin Hlow]|Hin].
        * left. split; [by right|done].
        * apply lowered_set_In in Hin as [[-> ->]|Hin]; [|by right].
          left. split; [by left|done].
      + intros k [(c' & [<-|Hc'] & ->)|[v Hv]]; apply IH2.
        * right. apply lowered_set_key.
        * left. by exists c'.
        * right. by apply lowered_set_keeps_keys with v. }
  destruct (Hgen df_cols []) as [H1 H2]. split.
  - intros low orig H. by destruct (H1 _ _ H) as [?|[]].
  - intros c Hc. apply H2. left. by exists c.
Qed.

Lemma first_containing_some (key : string) (d : list (string * string)) (orig : string) :
  first_containing key d = Some orig ->
  exists low, In (low, orig) d /\ contains key low = true.
Proof.
  induction d as [|[low0 orig0] d IH]; simpl; [done|].
  destruct (contains key low0) eqn:Hc.
  - intros [= <-]. exists low0. split; [by left|done].
  - intros H. destruct (IH H) as (low & Hin & Hlow). exists low. split; [by right|done].
Qed.

Lemma first_containing_none (key : string) (d : list (string * string)) :
  first_containing key d = None <->
  forall low orig, In (low, orig) d -> contains key low = false.
Proof.
  induction d as [|[low0 orig0] d IH]; simpl.
  - split; [by intros _ ? ? []|done].
  - destruct (contains key low0) eqn:Hc.
    + split; [done|]. intros H. specialize (H low0 orig0 (or_introl eq_refl)). congruence.
    + rewrite IH. split.
      * intros H low orig [[= <- <-]|Hin]; [done|]. by apply (H low orig).
      * intros H low orig Hin. apply (H low orig). by right.
Qed.

(** The column [guess_column] returns is a column of the table whose
    lower-cased, stripped name contains a keyword, and the keywords are
    tried in order: no keyword before that one is contained in the name
    of any column. *)
Theorem guess_column_first_keyword (df_cols keywords : list string) (c : string) :
  guess_column df_cols keywords = Some c ->
  In c df_cols /\
  exists pre key post,
    keywords = pre ++ key :: post /\
    contains key (strip (lower c)) = true /\
    forall k c', In k pre -> In c' df_cols -> contains k (strip (lower c')) = false.
Proof.
  unfold guess_column. destruct (lowered_spec df_cols) as [Hval Hkey].
  induction keywords as [|key keywords IH]; simpl; [done|].
  destruct (first_containing key (lowered df_cols)) as [orig|] eqn:Hfirst.
  - intros [= <-]. apply first_containing_some in Hfirst as (low & Hin & Hlow).
    destruct (Hval _ _ Hin) as [Hc ->]. split; [done|].
    exists [], key, keywords. split; [done|]. split; [done|]. by intros k c' [].
  - intros H. destruct (IH H) as (Hc & pre & key' & post & -> & Hkey' & Hpre).
    split; [done|]. exists (key :: pre), key', post. split; [done|]. split; [done|].
    intros k c' [Hk|Hk] Hc'; [subst k|by apply Hpre].
    destruct (Hkey c' Hc') as [orig Horig].
    by apply (proj1 (first_containing_none key (lowered df_cols)) Hfirst _ orig).
Qed.

(** [guess_column] returns [None] exactly when no keyword is contained in
    the lower-cased, stripped name of any column. *)
Theorem guess_column_none (df_cols keywords : list string) :
  guess_column df_cols keywords = None <->
  forall key c, In key keywords -> In c df_cols -> contains key (strip (lower c)) = false.
Proof.
  unfold guess_column. destruct (lowered_spec df_cols) as [Hval Hkey].
  induction keywords as [|key keywords IH]; simpl.
  - split; [by intros _ ? ? []|done].
  - destruct (first_containing key (lowered df_cols)) as [orig|] eqn:Hfirst.
    + split; [done|]. intros H.
      apply first_containing_some in Hfirst as (low & Hin & Hlow).
      destruct (Hval _ _ Hin) as [Hc ->].
      specialize (H key orig (or_introl eq_refl) Hc). congruence.
    + rewrite IH. split.
      * intros H k c [Hk|Hk] Hc; [subst k|by apply H].
        destruct (Hkey c Hc) as [orig Horig].
        by apply (proj1 (first_containing_none key (lowered df_cols)) Hfirst _ orig).
      * intros H k c Hk Hc. apply H; [by right|done].
Qed.

(** ** clean_data.py: deduplication by DOI *)

Lemma select_map {A : Type} (f : A -> bool) (rows : list A) :
  select rows (List.map f rows) = List.filter f rows.
Proof. induction rows as [|r rows IH]; simpl; [done|]. by rewrite IH. Qed.

Lemma non_null_rows_filter (merged : list row) :
  non_null_rows merged = List.filter (fun r => negb (is_null_like r)) merged.
Proof. apply select_map. Qed.

Lemma seen_spec (k : string) (seen : list string) :
  existsb (String.eqb k) seen = true <-> In k seen.
Proof.
  rewrite existsb_exists. split.
  - intros (x & Hx & Heq). apply String.eqb_eq in Heq. by subst.
  - intros H. exists k. split; [done|]. apply String.eqb_refl.
Qed.

Lemma keep_first_cons (seen : list string) (r : row) (rows : list row) :
  keep_first seen (r :: rows)
  = if existsb (String.eqb (doi_normalized r)) seen then keep_first seen rows
    else r :: keep_first (doi_normalized r :: seen) rows.
Proof. unfold keep_first. simpl. by destruct (existsb _ seen). Qed.

Lemma keep_first_In (seen : list string) (rows : list row) (r : row) :
  In r (keep_first seen rows) -> In r rows /\ ~ In (doi_normalized r) seen.
Proof.
  revert seen. induction rows as [|r0 rows IH]; intros seen; [done|].
  rewrite keep_first_cons.
  destruct (existsb (String.eqb (doi_normalized r0)) seen) eqn:Hseen.
  - intros H. destruct (IH _ H). split; [by right|done].
  - intros [<-|H].
    + split; [by left|]. intros Hin. apply seen_spec in Hin. congruence.
    + destruct (IH _ H) as [Hin Hnot]. split; [by right|].
      intros Hs. apply Hnot. by right.
Qed.

Lemma keep_first_NoDup (seen : list string) (rows : list row) :
  NoDup (List.map doi_normalized (keep_first seen rows)).
Proof.
  revert seen. induction rows as [|r0 rows IH]; intros seen.
  - constructor.
  - rewrite keep_first_cons. destruct (existsb _ seen); [apply IH|].
    simpl. apply NoDup_cons_2; [|apply IH].
    intros Hin. apply list_elem_of_In, in_map_iff in Hin as (r & Heq & Hr).
    apply keep_first_In in Hr as [_ Hnot]. apply Hnot. left. done.
Qed.

Lemma keep_first_sublist (seen : list string) (rows : list row) :
  keep_first seen rows `sublist_of` rows.
Proof.
  revert seen. induction rows as [|r0 rows IH]; intros seen.
  - constructor.
  - rewrite keep_first_cons. destruct (existsb _ seen).
    + apply sublist_cons. apply IH.
    + apply sublist_skip. apply IH.
Qed.

Lemma keep_first_length (seen : list string) (rows : list row) :
  length (List.filter id (duplicated seen (List.map doi_normalized rows)))
  + length (keep_first seen rows) = length rows.
Proof.
  revert seen. induction rows as [|r0 rows IH]; intros seen; [done|].
  rewrite keep_first_cons. simpl.
  destruct (existsb (String.eqb (doi_normalized r0)) seen); simpl.
  - by rewrite IH.
  - rewrite <- (IH (doi_normalized r0 :: seen)). lia.
Qed.

(** The first row of a key that was not seen before is kept. *)
Lemma keep_first_first (seen : list string) (pre post : list row) (r : row) :
  ~ In (doi_normalized r) seen ->
  (forall r', In r' pre -> doi_normalized r' <> doi_normalized r) ->
  In r (keep_first seen (pre ++ r :: post)).
Proof.
  revert seen. induction pre as [|r0 pre IH]; intros seen Hseen Hpre; simpl.
  - rewrite keep_first_cons.
    destruct (existsb (String.eqb (doi_normalized r)) seen) eqn:Hs.
    + apply seen_spec in Hs. done.
    + by left.
  - rewrite keep_first_cons.
    assert (forall r', In r' pre -> doi_normalized r' <> doi_normalized r) as Hpre'
      by (intros r' Hr'; apply Hpre; by right).
    destruct (existsb (String.eqb (doi_normalized r0)) seen).
    + by apply IH.
    + right. apply IH; [|done]. intros [Heq|Hin]; [|done].
      by apply (Hpre r0 (or_introl eq_refl)).
Qed.

(** A list whose keys are distinct and unseen is kept whole. *)
Lemma keep_first_id (seen : list string) (rows : list row) :
  NoDup (List.map doi_normalized rows) ->
  (forall r, In r rows -> ~ In (doi_normalized r) seen) ->
  keep_first seen rows = rows.
Proof.
  revert seen. induction rows as [|r0 rows IH]; intros seen Hnodup Hseen; [done|].
  rewrite keep_first_cons.
  destruct (existsb (String.eqb (doi_normalized r0)) seen) eqn:Hs.
  - apply seen_spec in Hs. by destruct (Hseen r0 (or_introl eq_refl)).
  - simpl in Hnodup. apply NoDup_cons in Hnodup as [Hr0 Hnodup].
    f_equal. apply IH; [done|].
    intros r Hr [Heq|Hin].
    + apply Hr0. rewrite Heq. apply list_elem_of_In, in_map. done.
    + apply (Hseen r); [by right|done].
Qed.

Lemma cleaned_non_null (merged : list row) :
  Forall (fun r => is_null_like r = false) (cleaned merged).
Proof.
  apply Forall_forall. intros r Hr. apply list_elem_of_In, keep_first_In in Hr as [Hr _].
  rewrite non_null_rows_filter in Hr. apply filter_In in Hr as [_ Hr].
  by apply negb_true_iff.
Qed.

(** The cleaned table has no row without a DOI and no two rows with the
    same DOI up to case and surrounding blanks, and it keeps the rows of
    the merged table in their order. *)
Theorem cleaned_no_duplicates (merged : list row) :
  NoDup (List.map doi_normalized (cleaned merged)) /\
  Forall (fun r => is_null_like r = false) (cleaned merged) /\
  cleaned merged `sublist_of` merged.
Proof.
  split; [apply keep_first_NoDup|]. split; [apply cleaned_non_null|].
  unfold cleaned. etransitivity; [apply keep_first_sublist|].
    rewrite non_null_rows_filter.
    induction merged as [|r merged IH]; simpl; [constructor|].
    destruct (negb (is_null_like r)); by constructor.
Qed.

(** Of the rows that have a DOI, the first row of every DOI survives: a
    row with a DOI that no earlier row with a DOI shares is in the cleaned
    table, so every DOI of the merged table is still represented. *)
Theorem cleaned_keeps_first (pre post : list row) (r : row) :
  is_null_like r = false ->
  (forall r', In r' pre -> is_null_like r' = false ->
              doi_normalized r' <> doi_normalized r) ->
  In r (cleaned (pre ++ r :: post)).
Proof.
  intros Hr Hpre. unfold cleaned. rewrite non_null_rows_filter, List.filter_app. simpl.
  rewrite Hr. simpl. apply keep_first_first; [by intros []|].
  intros r' Hr'. apply filter_In in Hr' as [Hin Hnn].
  apply Hpre; [done|]. by apply negb_true_iff.
Qed.

(** The three counts of the log add up to the rows of the merged table:
    rows without a DOI, rows dropped as duplicates, rows kept. *)
Theorem cleaning_counts_add_up (merged : list row) :
  null_doi_count merged + duplicate_rows_count merged + length (cleaned merged)
  = length merged.
Proof.
  unfold null_doi_count, duplicate_rows_count, cleaned.
  rewrite <- Nat.add_assoc, keep_first_length, non_null_rows_filter.
  induction merged as [|r merged IH]; simpl; [done|].
  destruct (is_null_like r); simpl; lia.
Qed.

(** Cleaning a cleaned table changes nothing. *)
Theorem cleaned_idempotent (merged : list row) :
  cleaned (cleaned merged) = cleaned merged.
Proof.
  pose proof (keep_first_NoDup [] (non_null_rows merged)) as Hnodup.
  fold (cleaned merged) in Hnodup.
  pose proof (cleaned_non_null merged) as Hnn.
  unfold cleaned at 1.
  assert (non_null_rows (cleaned merged) = cleaned merged) as ->.
  { rewrite non_null_rows_filter. revert Hnn. generalize (cleaned merged) as l.
    induction l as [|r l IH]; intros Hl; simpl; [done|].
    apply Forall_cons in Hl as [Hr Hl]. rewrite Hr. simpl. f_equal. by apply IH. }
  apply keep_first_id; [done|]. by intros r _ [].
Qed.

End Screening.

End Program.

(** The examples run with the builtins on ASCII text. *)
#[global] Existing Instance ascii_builtins.

(** ** The theorems at concrete runs *)

(** The scenario of the specification: three records in batches of two, a
    good reply for the first batch, a model that fails for good on the
    second. Records 0 and 2 are included, record 1 is excluded for TOPIC. *)
Example end_to_end_scenario :
  filter_papers_gemini json_decode oracle_then_down (example_files three_papers)
    "extraction-1" ArgNone (ArgInt 2) ArgNone world0
  = (Ok {| out_dir_path := "data/filtered/extraction-1";
           included_csv := [<["REASON" := PStr ""]> (paper "A" "a"); paper "C" "c"];
           excluded_csv := [<["REASON" := PStr "TOPIC"]> (paper "B" "b")] |},
     {| calls := 4; slept := [] |}).
Proof. vm_compute. reflexivity. Qed.

(** The example of the specification for the parser. *)
Example parser_robustness :
  extract_json_array json_decode (json_text "noise [{'index':0,'TEST':'INCLUDE'}] trailing")
  = Ok (PList [PDict [("index", PInt 0); ("TEST", PStr "INCLUDE")]]) /\
  extract_json_array json_decode "no brackets at all"
  = Raise (ValueError "No JSON array/object found in model response.").
Proof. split; reflexivity. Qed.

Lemma batch_partition_witness :
  0 < 2 /\
  exists starts,
    py_range (length (records three_papers)) (ArgInt (Z.of_nat 2)) = Ok starts /\
    length starts = (length (records three_papers) + 2 - 1) / 2 /\
    concat (List.map (batch_rows (records three_papers) 2) starts) = records three_papers.
Proof.
  split; [lia|].
  destruct (batch_partition (records three_papers) "Title" "Abstract" 2)
    as (starts & H1 & H2 & H3 & _); [lia|].
  exists starts. auto.
Defined.

(** C1 fails: papers 0 and 1 are decided by the first reply, the second
    reply has no bracket, and the run ends in the exception: no report. *)
Lemma parse_error_counterexample :
  filter_papers_gemini json_decode oracle_then_prose (example_files three_papers)
    "extraction-1" ArgNone (ArgInt 2) ArgNone world0
  = (Raise (ValueError "No JSON array/object found in model response."),
     {| calls := 2; slept := [] |}).
Proof. vm_compute. reflexivity. Qed.

Lemma parse_error_aborts_run_witness :
  process json_decode oracle_then_prose three_papers "criteria" (ArgInt 2) (ArgPath "out") world0
  = (Raise (ValueError "No JSON array/object found in model response."),
     {| calls := 2; slept := [] |}).
Proof.
  apply (parse_error_aborts_run (builtins := ascii_builtins) json_decode oracle_then_prose three_papers
           "Title" "Abstract" "criteria" 2 world0 eq_refl eq_refl 2
           (<[1%Z := verdict "EXCLUDE" (PStr "TOPIC")]>
              (<[0%Z := verdict "INCLUDE" (PStr "")]> ∅))
           {| calls := 1; slept := [] |} {| calls := 2; slept := [] |}
           (Some "I am sorry, I cannot classify these papers.")).
  - exists [0], []. split; vm_compute; reflexivity.
  - vm_compute. reflexivity.
  - vm_compute. reflexivity.
Defined.

(** C3 fails: the first entry of the reply has the index zero spelled out,
    and the run ends in the exception [int()] raises; the second entry,
    which is well formed, is never applied. *)
Lemma bad_index_counterexample :
  filter_papers_gemini json_decode oracle_bad_index (example_files three_papers)
    "extraction-1" ArgNone (ArgInt 2) ArgNone world0
  = (Raise (ValueError "invalid literal for int() with base 10"),
     {| calls := 1; slept := [] |}).
Proof. vm_compute. reflexivity. Qed.

Lemma bad_index_aborts_run_witness :
  process json_decode oracle_bad_index three_papers "criteria" (ArgInt 2) (ArgPath "out") world0
  = (Raise (ValueError "invalid literal for int() with base 10"),
     {| calls := 1; slept := [] |}).
Proof.
  apply (bad_index_aborts_run (builtins := ascii_builtins) json_decode oracle_bad_index three_papers
           "Title" "Abstract" "criteria" 2 world0 eq_refl eq_refl 0 ∅ ∅
           world0 {| calls := 1; slept := [] |}
           (Some (json_text
              "[{'index':'zero','TEST':'INCLUDE'},{'index':1,'TEST':'EXCLUDE','REASON':'TOPIC'}]"))
           []
           [PDict [("index", PInt 1); ("TEST", PStr "EXCLUDE"); ("REASON", PStr "TOPIC")]]
           (PDict [("index", PStr "zero"); ("TEST", PStr "INCLUDE")])).
  - exists [], [2]. split; vm_compute; reflexivity.
  - vm_compute. reflexivity.
  - vm_compute. reflexivity.
  - reflexivity.
  - reflexivity.
Defined.

(** C4 fails: the lowercase value is stored as INCLUDE. *)
Lemma lowercase_include_counterexample :
  reconcile_entry ∅ (PDict [("index", PInt 0); ("TEST", PStr "include")])
  = Ok {[0%Z := verdict "INCLUDE" (PStr "")]}.
Proof. vm_compute. reflexivity. Qed.

Lemma test_is_upper_cased_witness :
  reconcile_entry ∅ (PDict [("index", PInt 3); ("TEST", PStr "Include")])
  = Ok (<[3%Z := verdict "INCLUDE" (PStr "")]> ∅).
Proof.
  apply (test_is_upper_cased (builtins := ascii_builtins) ∅ [("index", PInt 3); ("TEST", PStr "Include")] 3 eq_refl)
    with (t := PStr "Include"); reflexivity.
Defined.

(** C5 fails: the first call fails with an error that carries no marker,
    and [call_model] calls again and returns the second reply. *)
Lemma unmarked_error_counterexample :
  call_model oracle_fail_once no_papers_prompt world0
  = (Ok (Some "[]"), {| calls := 2; slept := [] |}).
Proof. reflexivity. Qed.

Lemma unmarked_error_is_retried_witness :
  call_model oracle_down no_papers_prompt world0
  = (Raise (ModelError "400 INVALID_ARGUMENT"), {| calls := 0 + 3; slept := [] |}).
Proof.
  apply (unmarked_error_is_retried oracle_down no_papers_prompt world0
           "400 INVALID_ARGUMENT" eq_refl eq_refl)
    with (e1 := "400 INVALID_ARGUMENT"); reflexivity.
Defined.



Lemma fail_open_default_witness :
  exists rep,
    process json_decode oracle_then_down three_papers "criteria" (ArgInt 2) (ArgPath "out") world0
    = (Ok rep, {| calls := 4; slept := [] |}) /\
    In (delete "TEST" (paper "C" "c")) (included_csv rep).
Proof.
  destruct (fail_open_default json_decode oracle_then_down three_papers "criteria" (ArgInt 2)
              "out" world0 {| calls := 4; slept := [] |} "Title" "Abstract"
              (<[1%Z := verdict "EXCLUDE" (PStr "TOPIC")]>
                 (<[0%Z := verdict "INCLUDE" (PStr "")]> ∅))
              2 (paper "C" "c"))
    as (rep & Hrep & _ & _ & _ & _ & Hin); try (vm_compute; reflexivity).
  exists rep. auto.
Defined.

(** C9 fails: a single record, index 0, is sent; the reply names index 7
    twice, the map takes the key, and the second write replaces the first. *)
Lemma foreign_index_counterexample :
  get_filtered_data json_decode oracle_index_seven (records one_paper)
    "Title" "Abstract" "criteria" (ArgInt 10) world0
  = (Ok {[7%Z := verdict "EXCLUDE" (PStr "TOPIC")]}, {| calls := 1; slept := [] |}) /\
  List.map item_index (batch_items (records one_paper) "Title" "Abstract" 10 0) = [0] /\
  reconcile [PDict [("index", PInt 7); ("TEST", PStr "INCLUDE")]] ∅
  = Ok {[7%Z := verdict "INCLUDE" (PStr "")]}.
Proof. repeat split; vm_compute; reflexivity. Qed.

Lemma reconcile_last_write_wins_witness :
  reconcile [PDict [("index", PInt 7); ("TEST", PStr "INCLUDE")];
             PDict [("index", PInt 7); ("TEST", PStr "EXCLUDE"); ("REASON", PStr "TOPIC")]]
            {[7%Z := verdict "EXCLUDE" (PStr "LANGUAGE")]}
  = Ok {[7%Z := verdict "EXCLUDE" (PStr "TOPIC")]} /\
  ({[7%Z := verdict "EXCLUDE" (PStr "TOPIC")]} : result_map) !! 7%Z
  = Some (verdict "EXCLUDE" (PStr "TOPIC")).
Proof.
  assert (reconcile
            [PDict [("index", PInt 7); ("TEST", PStr "INCLUDE")];
             PDict [("index", PInt 7); ("TEST", PStr "EXCLUDE"); ("REASON", PStr "TOPIC")]]
            {[7%Z := verdict "EXCLUDE" (PStr "LANGUAGE")]}
          = Ok {[7%Z := verdict "EXCLUDE" (PStr "TOPIC")]}) as Hrec
    by (vm_compute; reflexivity).
  split; [exact Hrec|].
  apply (proj2 (proj2 (reconcile_last_write_wins _ _ _ Hrec))
           [PDict [("index", PInt 7); ("TEST", PStr "INCLUDE")]]
           (PDict [("index", PInt 7); ("TEST", PStr "EXCLUDE"); ("REASON", PStr "TOPIC")])
           []).
  - reflexivity.
  - vm_compute. reflexivity.
  - apply not_elem_of_nil.
Defined.

(** The table without rows: the header is read, no batch is issued, and the
    run ends in the exception before any file is written. *)
Example empty_table_example :
  filter_papers_gemini json_decode oracle_down (example_files no_paper)
    "extraction-1" ArgNone (ArgInt DEFAULT_BATCH) ArgNone world0
  = (Raise (KeyError "TEST"), world0).
Proof. reflexivity. Qed.

(** ** The further theorems at concrete runs *)

Lemma scan_pairs_dict (fuel : nat) (s : string) (acc : list (string * pyval))
    (v : pyval) (r : string) :
  scan_pairs fuel s acc = Some (v, r) -> exists d, v = PDict d.
Proof.
  revert s acc. induction fuel as [|fuel IH]; intros s acc H; [done|].
  simpl in H. repeat case_match; try done; simplify_eq; eauto.
Qed.

(** The decoder of the examples reads a text that starts with a brace as a
    dict, as [json.loads] does. *)
Lemma json_decode_brace (s : string) (v : pyval) :
  json_decode (String "{" s) = Some v -> exists d, v = PDict d.
Proof.
  unfold json_decode. cbn [skip_ws]. change (is_json_ws "{") with false. cbn iota.
  replace (2 * String.length (String "{" s) + 2)
    with (S (2 * String.length (String "{" s) + 1)) by lia.
  cbn [scan_once]. change (Ascii.eqb "{" dquote) with false.
  change (Ascii.eqb "{" "[") with false. change (Ascii.eqb "{" "{") with true. cbn iota.
  intros H. repeat case_match; try done; simplify_eq; eauto using scan_pairs_dict.
Qed.

Lemma has_char_app (c : ascii) (pre rest : string) :
  has_char c (pre +:+ String c rest) = true.
Proof.
  induction pre as [|a pre IH]; simpl.
  - by rewrite Ascii.eqb_refl.
  - rewrite IH. apply orb_true_r.
Qed.

(** A text without the opening character has no pair. *)
Lemma no_char_no_pair (o c : ascii) (text : string) :
  has_char o text = false ->
  forall pre mid post, text <> pre +:+ String o (mid +:+ String c post).
Proof. intros H pre mid post ->. by rewrite has_char_app in H. Qed.

(** Every call is refused for rate limiting. *)
Lemma rate_limit_cooldown_witness :
  call_model (fun _ _ => Failure "429 RESOURCE_EXHAUSTED") no_papers_prompt world0
  = (Raise (ModelError "429 RESOURCE_EXHAUSTED"),
     {| calls := 0 + 3; slept := [60%Q; 60%Q; 60%Q] |}).
Proof.
  apply (rate_limit_cooldown (fun _ _ => Failure "429 RESOURCE_EXHAUSTED") no_papers_prompt
           world0 "429 RESOURCE_EXHAUSTED" eq_refl eq_refl)
    with (e1 := "429 RESOURCE_EXHAUSTED"); reflexivity.
Defined.

(** Every call finds the service unavailable. *)
Lemma unavailable_backoff_witness :
  call_model (fun _ _ => Failure "503 SERVICE_UNAVAILABLE") no_papers_prompt world0
  = (Raise (ModelError "503 SERVICE_UNAVAILABLE"),
     {| calls := 0 + 3; slept := [4%Q; 2%Q; 1%Q] |}).
Proof.
  apply (unavailable_backoff (fun _ _ => Failure "503 SERVICE_UNAVAILABLE") no_papers_prompt
           world0 "503 SERVICE_UNAVAILABLE" eq_refl eq_refl)
    with (e1 := "503 SERVICE_UNAVAILABLE"); reflexivity.
Defined.

Lemma model_failure_finalizes_witness :
  process json_decode oracle_then_down three_papers "criteria" (ArgInt 2) (ArgPath "out") world0
  = (Ok {| out_dir_path := "out";
           included_csv := included (out_rows (records three_papers) good_results);
           excluded_csv := excluded (out_rows (records three_papers) good_results) |},
     {| calls := 4; slept := [] |}).
Proof.
  apply (model_failure_finalizes (builtins := ascii_builtins) json_decode oracle_then_down three_papers
           "Title" "Abstract" "criteria" 2 "out" world0 2 good_results
           {| calls := 1; slept := [] |} {| calls := 4; slept := [] |}
           (ModelError "400 INVALID_ARGUMENT") eq_refl eq_refl).
  - exists [0], []. split; vm_compute; reflexivity.
  - vm_compute. reflexivity.
Defined.

Lemma finalization_covers_rows_witness :
  exists rep,
    process json_decode oracle_then_down three_papers "criteria" (ArgInt 2) (ArgPath "out") world0
    = (Ok rep, {| calls := 4; slept := [] |}) /\
    length (included_csv rep) + length (excluded_csv rep) = length (records three_papers).
Proof.
  destruct (finalization_covers_rows json_decode oracle_then_down three_papers "criteria"
              (ArgInt 2) "out" world0 {| calls := 4; slept := [] |} "Title" "Abstract"
              good_results)
    as (rep & Hrep & _ & _ & Hlen & _); try (vm_compute; reflexivity); [done|].
  exists rep. auto.
Defined.

Lemma excluded_only_by_verdict_witness :
  exists i orig reason,
    records three_papers !! i = Some orig /\
    good_results !! Z.of_nat i = Some (verdict "EXCLUDE" reason) /\
    (<["REASON" := PStr "TOPIC"]> (paper "B" "b")) !! "REASON" = Some reason.
Proof.
  assert (get_filtered_data json_decode oracle_then_down (records three_papers)
            "Title" "Abstract" "criteria" (ArgInt 2) world0
          = (Ok good_results, {| calls := 4; slept := [] |})) as Hrun
    by (vm_compute; reflexivity).
  assert (process json_decode oracle_then_down three_papers "criteria" (ArgInt 2)
            (ArgPath "out") world0
          = (Ok {| out_dir_path := "out";
                   included_csv := [<["REASON" := PStr ""]> (paper "A" "a"); paper "C" "c"];
                   excluded_csv := [<["REASON" := PStr "TOPIC"]> (paper "B" "b")] |},
             {| calls := 4; slept := [] |})) as Hproc
    by (vm_compute; reflexivity).
  destruct (excluded_only_by_verdict (builtins := ascii_builtins) json_decode oracle_then_down three_papers "criteria"
              (ArgInt 2) (ArgPath "out") world0 _ _ "Title" "Abstract" good_results _
              eq_refl eq_refl Hrun Hproc
              (<["REASON" := PStr "TOPIC"]> (paper "B" "b")) (or_introl eq_refl))
    as (i & orig & reason & H1 & H2 & _ & H4 & _).
  exists i, orig, reason. split; [exact H1|]. split; [exact H2|exact H4].
Defined.

Lemma written_rows_keep_columns_witness :
  exists r,
    (In r [<["REASON" := PStr ""]> (paper "A" "a"); paper "C" "c"]
     \/ In r [<["REASON" := PStr "TOPIC"]> (paper "B" "b")]) /\
    r !! "TEST" = None /\
    r !! "Year" = paper "B" "b" !! "Year".
Proof.
  assert (get_filtered_data json_decode oracle_then_down (records three_papers)
            "Title" "Abstract" "criteria" (ArgInt 2) world0
          = (Ok good_results, {| calls := 4; slept := [] |})) as Hrun
    by (vm_compute; reflexivity).
  assert (process json_decode oracle_then_down three_papers "criteria" (ArgInt 2)
            (ArgPath "out") world0
          = (Ok {| out_dir_path := "out";
                   included_csv := [<["REASON" := PStr ""]> (paper "A" "a"); paper "C" "c"];
                   excluded_csv := [<["REASON" := PStr "TOPIC"]> (paper "B" "b")] |},
             {| calls := 4; slept := [] |})) as Hproc
    by (vm_compute; reflexivity).
  destruct (written_rows_keep_columns (builtins := ascii_builtins) json_decode oracle_then_down three_papers "criteria"
              (ArgInt 2) (ArgPath "out") world0 _ _ "Title" "Abstract" good_results _
              1 (paper "B" "b") eq_refl eq_refl Hrun Hproc eq_refl)
    as (r & Hin & Htest & Hcols & _).
  exists r. split; [exact Hin|]. split; [exact Htest|]. by apply Hcols.
Defined.

(** The verdict of paper 1 stems from the second entry of the first reply. *)
Lemma verdicts_reason_gated_witness :
  exists B n start text entries d,
    ArgInt 2 = ArgInt B /\
    calls world0 <= n < 4 /\
    oracle_then_down n
      (build_prompt "criteria"
         (batch_items (records three_papers) "Title" "Abstract" (Z.to_nat B) start))
    = Reply text /\
    parse_reply json_decode (Some text) = Ok entries /\
    In (PDict d) entries /\
    entry_index (PDict d) = Ok 1%Z /\
    verdict "EXCLUDE" (PStr "TOPIC")
    = (if String.eqb (upper (py_str (default (PStr "") (items_get d "TEST")))) "INCLUDE"
       then verdict "INCLUDE" (PStr "")
       else verdict "EXCLUDE"
              (if String.eqb (upper (py_str (default (PStr "") (items_get d "TEST"))))
                             "EXCLUDE"
               then default (PStr "") (items_get d "REASON")
               else PStr "")).
Proof.
  apply (verdicts_reason_gated (builtins := ascii_builtins) json_decode oracle_then_down
           (records three_papers) "Title" "Abstract" "criteria" (ArgInt 2) good_results
           world0 {| calls := 4; slept := [] |});
    vm_compute; reflexivity.
Defined.

Lemma reconcile_idempotent_witness :
  reconcile [PDict [("index", PInt 7); ("TEST", PStr "INCLUDE")];
             PDict [("index", PInt 7); ("TEST", PStr "EXCLUDE"); ("REASON", PStr "TOPIC")]]
            {[7%Z := verdict "EXCLUDE" (PStr "TOPIC")]}
  = Ok {[7%Z := verdict "EXCLUDE" (PStr "TOPIC")]}.
Proof.
  apply (reconcile_idempotent _ ∅). vm_compute. reflexivity.
Defined.

(** A column that merely contains the key comes first and is taken. *)
Lemma find_column_first_containing_witness :
  find_column "title" ["Authors"; "Subtitle"; "Title"] = Some "Subtitle".
Proof.
  apply (proj2 (find_column_first_containing "title" ["Authors"; "Subtitle"; "Title"]
                  "Subtitle")).
  exists ["Authors"], ["Title"]. split; [reflexivity|]. split; [reflexivity|].
  constructor; [reflexivity|constructor].
Defined.

Lemma oracle_calls_bounded_witness :
  calls world0
  <= calls (snd (get_filtered_data json_decode oracle_then_down (records three_papers)
                   "Title" "Abstract" "criteria" (ArgInt (Z.of_nat 2)) world0))
  <= calls world0 + MAX_RETRIES * ((length (records three_papers) + 2 - 1) / 2).
Proof.
  apply (oracle_calls_bounded json_decode oracle_then_down (records three_papers)
           "Title" "Abstract" "criteria" 2 world0).
  lia.
Defined.

(** With the batch size -5 the oracle, which would exclude paper 1, is
    never asked. *)
Lemma nonpositive_batch_size_witness :
  process json_decode oracle_then_down three_papers "criteria" (ArgInt (-5)) (ArgPath "out")
    world0
  = (Ok {| out_dir_path := "out";
           included_csv := List.map (delete "TEST") (records three_papers);
           excluded_csv := [] |}, world0).
Proof.
  apply (proj1 (nonpositive_batch_size (builtins := ascii_builtins) json_decode oracle_then_down three_papers "criteria"
                  "out" world0 "Title" "Abstract" eq_refl eq_refl
                  ltac:(discriminate))).
  lia.
Defined.

(** A reply that is a single object. *)
Lemma brace_fallback_never_parses_witness :
  parse_reply json_decode (Some (json_text "{'index':0,'TEST':'INCLUDE'}"))
  = Raise (ValueError "No JSON array/object found in model response.")
  \/ parse_reply json_decode (Some (json_text "{'index':0,'TEST':'INCLUDE'}"))
     = Raise JSONDecodeError
  \/ parse_reply json_decode (Some (json_text "{'index':0,'TEST':'INCLUDE'}"))
     = Raise (ValueError "Model returned JSON that is not a list.").
Proof.
  apply (brace_fallback_never_parses json_decode
           (json_text "{'index':0,'TEST':'INCLUDE'}") json_decode_brace).
  apply no_char_no_pair. reflexivity.
Defined.

(** The keyword abstract is tried before summary, whatever the order of
    the columns. *)
Lemma guess_column_first_keyword_witness :
  In "Abstract" ["Authors"; "Summary"; "Abstract"] /\
  exists pre key post,
    ["abstract"; "summary"] = pre ++ key :: post /\
    contains key (strip (lower "Abstract")) = true.
Proof.
  destruct (guess_column_first_keyword (builtins := ascii_builtins) ["Authors"; "Summary"; "Abstract"]
              ["abstract"; "summary"] "Abstract" eq_refl)
    as (Hin & pre & key & post & Hk & Hc & _).
  split; [exact Hin|]. exists pre, key, post. split; [exact Hk|exact Hc].
Defined.

(** The merged example: the second spelling of the first DOI, the blank
    DOI and the missing DOI go, the two DOIs stay. *)
Example cleaned_example :
  cleaned merged_example
  = [doi_row (PStr "10.1000/A1") "first"; doi_row (PStr "10.1000/b2") "other"] /\
  null_doi_count merged_example = 2 /\
  duplicate_rows_count merged_example = 1.
Proof. repeat split; vm_compute; reflexivity. Qed.

Lemma cleaned_keeps_first_witness :
  In (doi_row (PStr "10.1000/b2") "other") (cleaned merged_example).
Proof.
  apply (cleaned_keeps_first
           [doi_row (PStr "10.1000/A1") "first"; doi_row (PStr "  ") "blank";
            doi_row (PStr " 10.1000/a1 ") "again"; doi_row (PFloat "nan" None) "missing"]
           [] (doi_row (PStr "10.1000/b2") "other")).
  - reflexivity.
  - intros r' Hr' Hnull.
    destruct Hr' as [<-|[<-|[<-|[<-|[]]]]]; vm_compute in Hnull |- *; congruence.
Defined.
